(** * controleDeEntregas: the delivery back end (delivery-backend/server.js)

    A shallow embedding of the Express application of server.js: the
    connection check that runs before every route, the handler of
    GET /api/deliveries and the handler of PUT /api/deliveries/:id/status,
    together with the part of the JavaScript and MySQL environment they
    rely on, followed by the properties of the handlers. *)

From Stdlib Require Import ZArith NArith List Ascii String Floats.SpecFloat.
From stdpp Require Import base decidable option list countable gmap fin_maps.

Set Warnings "-register-all".

Open Scope N_scope.

(** ** JavaScript strings

    An ECMAScript string is a finite sequence of 16-bit code units. *)

Abbreviation jsstring := (list N).

(** Source text of this file is UTF-8; [js] reads a literal and gives the
    code units the same literal has in server.js. *)
Fixpoint utf16_of_utf8 (bytes : list N) : list N :=
  match bytes with
  | [] => []
  | b0 :: rest0 =>
    if b0 <? 128 then b0 :: utf16_of_utf8 rest0
    else
      match rest0 with
      | [] => [b0]
      | b1 :: rest1 =>
        if b0 <? 224 then ((b0 - 192) * 64 + (b1 - 128)) :: utf16_of_utf8 rest1
        else
          match rest1 with
          | [] => [b0; b1]
          | b2 :: rest2 =>
            if b0 <? 240
            then ((b0 - 224) * 4096 + (b1 - 128) * 64 + (b2 - 128))
                   :: utf16_of_utf8 rest2
            else
              match rest2 with
              | [] => [b0; b1; b2]
              | b3 :: rest3 =>
                let cp := (b0 - 240) * 262144 + (b1 - 128) * 4096
                          + (b2 - 128) * 64 + (b3 - 128) in
                (55296 + (cp - 65536) / 1024)
                  :: (56320 + (cp - 65536) mod 1024)
                  :: utf16_of_utf8 rest3
              end
          end
      end
  end.

Definition js (text : string) : jsstring :=
  utf16_of_utf8 (map N_of_ascii (list_ascii_of_string text)).

(** The double quote, which the messages of server.js contain. *)
Definition dquote : jsstring := [34].

(** *** String.prototype.toUpperCase

    The upper case of one code unit, for Basic Latin, the Latin-1
    Supplement, and the two code units above U+00FF whose upper case is a
    Basic Latin letter (U+0131 dotless i, U+017F long s).  The table stops
    there: any other code unit is left as it is.  Every code unit whose
    upper case is the single letter S or N is in the table. *)
Definition upper_unit (c : N) : list N :=
  if (97 <=? c) && (c <=? 122) then [c - 32]            (* a-z *)
  else if c =? 181 then [924]                            (* micro sign *)
  else if c =? 223 then [83; 83]                         (* sharp s: SS *)
  else if (224 <=? c) && (c <=? 254) && negb (c =? 247) then [c - 32]
  else if c =? 255 then [376]                            (* y diaeresis *)
  else if c =? 305 then [73]                             (* dotless i *)
  else if c =? 383 then [83]                             (* long s *)
  else [c].

Definition toUpperCase (s : jsstring) : jsstring := flat_map upper_unit s.

(** *** String.prototype.trim

    WhiteSpace and LineTerminator of ECMAScript; all of them are single
    code units. *)
Definition is_white_space (c : N) : bool :=
  ((9 <=? c) && (c <=? 13)) || (c =? 32) || (c =? 160) || (c =? 5760)
  || ((8192 <=? c) && (c <=? 8202)) || (c =? 8232) || (c =? 8233)
  || (c =? 8239) || (c =? 8287) || (c =? 12288) || (c =? 65279).

Fixpoint trimStart (s : jsstring) : jsstring :=
  match s with
  | c :: rest => if is_white_space c then trimStart rest else s
  | [] => []
  end.

Definition trimEnd (s : jsstring) : jsstring := rev (trimStart (rev s)).

Definition trim (s : jsstring) : jsstring := trimEnd (trimStart s).

(** ** JavaScript values

    What a parsed query string or a parsed JSON body can hold, and
    [undefined] for a property that is not there. *)

Inductive JSValue : Type :=
| JSUndefined
| JSNull
| JSBoolean (b : bool)
| JSNumber (x : spec_float)
| JSString (s : jsstring)
| JSArray (items : list JSValue)
| JSObject (props : gmap jsstring JSValue).

(** ToBoolean, as [if (v)] and [!v] apply it. *)
Definition truthy (v : JSValue) : bool :=
  match v with
  | JSUndefined | JSNull => false
  | JSBoolean b => b
  | JSNumber (S754_zero _) | JSNumber S754_nan => false
  | JSNumber _ => true
  | JSString s => negb (bool_decide (s = []))
  | JSArray _ | JSObject _ => true
  end.

Definition typeof (v : JSValue) : jsstring :=
  match v with
  | JSUndefined => js "undefined"
  | JSNull | JSArray _ | JSObject _ => js "object"
  | JSBoolean _ => js "boolean"
  | JSNumber _ => js "number"
  | JSString _ => js "string"
  end.

(** [const { key } = obj]: the property, or [undefined]. *)
Definition property (obj : gmap jsstring JSValue) (key : jsstring) : JSValue :=
  default JSUndefined (obj !! key).

Inductive JSError : Type :=
| TypeError (member : jsstring)   (* [v.member(...)] where [v.member] is not a function *)
| MySQLError.                     (* a rejection of the mysql2 driver *)

(** ** The table [entregas] *)

Inductive SqlValue : Type :=
| SqlNull
| SqlInt (n : Z)
| SqlText (s : jsstring).

#[global] Instance SqlValue_eq_dec : EqDecision SqlValue.
Proof. solve_decision. Defined.

(** The columns server.js names.  [SELECT *] returns whatever else the
    table has; nothing in server.js reads a column of a returned row. *)
Record Row : Type := mkRow {
  ID_ENTREGA : SqlValue;
  EMISSAO : SqlValue;
  CAIXA : SqlValue;
  COO : SqlValue;
  ENTREGUE : SqlValue;
  NOME : SqlValue
}.

#[global] Instance Row_eq_dec : EqDecision Row.
Proof. solve_decision. Defined.

(** What [pool.execute] resolves to, first element of the pair it
    returns: the rows of a SELECT, or the header of an UPDATE. *)
Inductive QueryResult : Type :=
| RowSet (rows : list Row)
| ResultSetHeader (affectedRows : Z).

(** ** HTTP responses *)

Inductive Body : Type :=
| Message (message : jsstring)     (* [{ message: ... }] *)
| Data (result : QueryResult).     (* [res.json(rows)] *)

Record Response : Type := mkResponse {
  statusCode : Z;
  body : Body
}.

(** ** The world a request runs in

    The MySQL server is outside the program.  Its behaviour is a field of
    the world, so that every property below holds whatever the server
    does: whether the pool hands out a connection, whether a statement
    fails, how [column = ?] compares a stored value with a bound
    parameter, and which rows a SELECT text with its parameters returns. *)
Record MySQL : Type := mkMySQL {
  connects : bool;
  fails : jsstring -> list JSValue -> bool;
  where_eq : SqlValue -> JSValue -> bool;
  select : jsstring -> list JSValue -> list Row -> list Row
}.

Inductive Event : Type :=
| PoolGetConnection
| ConnectionRelease
| PoolExecute (sql : jsstring) (values : list JSValue)
| ConsoleError (label : jsstring) (err : JSError)
| HandlerRejected (err : JSError).  (* the promise of an async handler rejected *)

Record World : Type := mkWorld {
  mysql : MySQL;
  entregas : list Row;
  trace : list Event;           (* oldest first *)
  sent : option Response        (* what [res] has sent for the current request *)
}.

Definition log (e : Event) (w : World) : World :=
  {| mysql := mysql w; entregas := entregas w;
     trace := trace w ++ [e]; sent := sent w |}.

Definition set_entregas (t : list Row) (w : World) : World :=
  {| mysql := mysql w; entregas := t; trace := trace w; sent := sent w |}.

Definition set_sent (r : option Response) (w : World) : World :=
  {| mysql := mysql w; entregas := entregas w; trace := trace w; sent := r |}.

(** The statements a trace has sent to the server. *)
Fixpoint executed (t : list Event) : list (jsstring * list JSValue) :=
  match t with
  | [] => []
  | PoolExecute sql values :: rest => (sql, values) :: executed rest
  | _ :: rest => executed rest
  end.

(** ** Statements of JavaScript

    A statement runs in a world and completes normally with a value, by
    [return], or by throwing. *)
Inductive Completion (A : Type) : Type :=
| Normal (a : A)
| Return
| Throw (e : JSError).

Arguments Normal {A} a.
Arguments Return {A}.
Arguments Throw {A} e.

Definition Js (A : Type) : Type := World -> Completion A * World.

#[global] Instance Js_ret : MRet Js := fun A a w => (Normal a, w).

#[global] Instance Js_bind : MBind Js := fun A B k m w =>
  match m w with
  | (Normal a, w') => k a w'
  | (Return, w') => (Return, w')
  | (Throw e, w') => (Throw e, w')
  end.

Definition return_ {A : Type} : Js A := fun w => (Return, w).

Definition throw {A : Type} (e : JSError) : Js A := fun w => (Throw e, w).

(** [try { body } catch (err) { handler }]; a [return] inside the body
    leaves the function and is not caught. *)
Definition try_catch (body : Js ()) (handler : JSError -> Js ()) : Js () :=
  fun w =>
    match body w with
    | (Throw e, w') => handler e w'
    | done => done
    end.

(** Calling an async function: the caller goes on whatever happens in the
    callee; an exception that leaves the callee rejects its promise.
    What Express then does with the rejected promise depends on its
    version (nothing under Express 4, an answer 500 of its own under
    Express 5) and is no code of server.js: the trace records the
    rejection and nothing after it. *)
Definition async_call (callee : Js ()) : Js () :=
  fun w =>
    match callee w with
    | (Throw e, w') => (Normal (), log (HandlerRejected e) w')
    | (_, w') => (Normal (), w')
    end.

(** [a || b] and [a && b] evaluate [b] only when [a] does not decide. *)
Definition or_else (a b : Js bool) : Js bool :=
  x ← a; if x : bool then mret true else b.

Definition and_then (a b : Js bool) : Js bool :=
  x ← a; if x : bool then b else mret false.

(** [v.toUpperCase()] and [v.trim()]: a string has the method; on any
    other value that can be here the member is not a function (undefined
    and null throw a TypeError as well). *)
Definition call_toUpperCase (v : JSValue) : Js jsstring :=
  match v with
  | JSString s => mret (toUpperCase s)
  | _ => throw (TypeError (js "toUpperCase"))
  end.

Definition call_trim (v : JSValue) : Js jsstring :=
  match v with
  | JSString s => mret (trim s)
  | _ => throw (TypeError (js "trim"))
  end.

(** [a === b] and [a !== b] on strings. *)
Definition strict_eq (a b : jsstring) : bool := bool_decide (a = b).
Definition strict_ne (a b : jsstring) : bool := negb (strict_eq a b).

(** ** The connection pool (mysql2/promise)

    [createPool] (lines 17-25) is given host, user, password and database
    from the environment, waitForConnections, connectionLimit 10 and
    queueLimit 0, and no [flags]. *)

(** [await pool.getConnection()] *)
Definition pool_getConnection : Js () :=
  fun w =>
    let w := log PoolGetConnection w in
    if connects (mysql w) then (Normal (), w) else (Throw MySQLError, w).

(** [connection.release()] *)
Definition connection_release : Js () :=
  fun w => (Normal (), log ConnectionRelease w).

(** The one UPDATE of the program, line 118. *)
Definition UPDATE_ENTREGAS : jsstring :=
  js "UPDATE entregas SET ENTREGUE = ?, NOME = ? WHERE ID_ENTREGA = ?".

Definition set_delivery (flag name : SqlValue) (r : Row) : Row :=
  {| ID_ENTREGA := ID_ENTREGA r; EMISSAO := EMISSAO r; CAIXA := CAIXA r;
     COO := COO r; ENTREGUE := flag; NOME := name |}.

(** [SET ENTREGUE = flag, NOME = name WHERE ID_ENTREGA = id] on a table. *)
Definition sql_update (eq : SqlValue -> JSValue -> bool)
    (flag name : jsstring) (id : JSValue) (t : list Row) : list Row :=
  map (fun r => if eq (ID_ENTREGA r) id
                then set_delivery (SqlText flag) (SqlText name) r
                else r) t.

Definition rows_matched (eq : SqlValue -> JSValue -> bool)
    (id : JSValue) (t : list Row) : nat :=
  length (List.filter (fun r => eq (ID_ENTREGA r) id) t).

Definition rows_changed (eq : SqlValue -> JSValue -> bool)
    (flag name : jsstring) (id : JSValue) (t : list Row) : nat :=
  length (List.filter
            (fun r => eq (ID_ENTREGA r) id
                      && negb (bool_decide
                                 (set_delivery (SqlText flag) (SqlText name) r = r)))
            t).

(** mysql2 opens its connections with the client flag FOUND_ROWS unless
    the [flags] option takes it away, and the pool of server.js has no
    [flags]: [affectedRows] of an UPDATE is the number of rows its WHERE
    clause matched.  Without the flag it would be the number of rows
    whose values changed. *)
Definition FOUND_ROWS : bool := true.

Definition affected_rows (found_rows : bool)
    (eq : SqlValue -> JSValue -> bool)
    (flag name : jsstring) (id : JSValue) (t : list Row) : Z :=
  Z.of_nat (if found_rows then rows_matched eq id t
            else rows_changed eq flag name id t).

(** [await pool.execute(sql, values)].  The UPDATE is only ever sent with
    text for the flag and the name; with anything else in their place the
    statement is rejected here.  Any other text is a SELECT. *)
Definition pool_execute (sql : jsstring) (values : list JSValue) : Js QueryResult :=
  fun w =>
    let w := log (PoolExecute sql values) w in
    if fails (mysql w) sql values then (Throw MySQLError, w)
    else if bool_decide (sql = UPDATE_ENTREGAS) then
      match values with
      | [JSString flag; JSString name; id] =>
        let eq := where_eq (mysql w) in
        (Normal (ResultSetHeader
                   (affected_rows FOUND_ROWS eq flag name id (entregas w))),
         set_entregas (sql_update eq flag name id (entregas w)) w)
      | _ => (Throw MySQLError, w)
      end
    else (Normal (RowSet (select (mysql w) sql values (entregas w))), w).

(** [result.affectedRows === 0] *)
Definition affectedRows_is_0 (result : QueryResult) : bool :=
  match result with
  | ResultSetHeader n => (n =? 0)%Z
  | RowSet _ => false
  end.

(** ** Express *)

(** [res.status(code).json(b)]; [res.json(b)] answers 200. *)
Definition res_status_json (code : Z) (b : Body) : Js () :=
  fun w => (Normal (), set_sent (Some (mkResponse code b)) w).

Definition res_json (b : Body) : Js () := res_status_json 200%Z b.

Definition console_error (label : jsstring) (err : JSError) : Js () :=
  fun w => (Normal (), log (ConsoleError label err) w).

(** A request as Express hands it to the route that matches its method
    and path: the parsed query string of GET /api/deliveries, the [:id]
    segment and the parsed JSON body of PUT /api/deliveries/:id/status. *)
Inductive Request : Type :=
| GET_api_deliveries (query : gmap jsstring JSValue)
| PUT_api_deliveries_id_status (id : jsstring) (body : gmap jsstring JSValue)
| NoRoute.

(** ** The program *)

(** Lines 28-38: the middleware that checks the connection. *)
Definition MSG_CONNECTION : jsstring :=
  js "Erro interno do servidor: falha na conexão com o banco de dados.".

Definition check_connection (next : Js ()) : Js () :=
  try_catch
    (pool_getConnection;;
     connection_release;;
     next)
    (fun err =>
       console_error (js "Erro ao conectar ao banco de dados:") err;;
       res_status_json 500%Z (Message MSG_CONNECTION)).

(** Lines 51-93: GET /api/deliveries. *)
Definition MSG_STATUS_INVALIDO : jsstring :=
  js "Status inválido. Use " ++ dquote ++ js "S" ++ dquote
  ++ js " para entregue ou " ++ dquote ++ js "N" ++ dquote
  ++ js " para não entregue.".

Definition MSG_ERRO_BUSCAR : jsstring :=
  js "Erro interno do servidor ao buscar entregas.".

Definition get_deliveries (req_query : gmap jsstring JSValue) : Js () :=
  let startDate := property req_query (js "startDate") in
  let endDate := property req_query (js "endDate") in
  let pdv := property req_query (js "pdv") in
  let status := property req_query (js "status") in
  let query := js "SELECT * FROM entregas WHERE 1=1" in
  let params := [] in
  let '(query, params) :=
    if truthy startDate
    then (query ++ js " AND EMISSAO >= ?", params ++ [startDate])
    else (query, params) in
  let '(query, params) :=
    if truthy endDate
    then (query ++ js " AND EMISSAO <= ?", params ++ [endDate])
    else (query, params) in
  let '(query, params) :=
    if truthy pdv
    then (query ++ js " AND (CAIXA = ? OR COO = ?)", params ++ [pdv; pdv])
    else (query, params) in
  '(query, params) ←
    (if truthy status then
       valid ← or_else (u ← call_toUpperCase status; mret (strict_eq u (js "S")))
                       (u ← call_toUpperCase status; mret (strict_eq u (js "N")));
       if valid : bool then
         u ← call_toUpperCase status;
         mret (query ++ js " AND ENTREGUE = ?", params ++ [JSString u])
       else
         res_status_json 400%Z (Message MSG_STATUS_INVALIDO);;
         return_
     else mret (query, params));
  try_catch
    (rows ← pool_execute query params;
     res_json (Data rows))
    (fun error =>
       console_error (js "Erro ao buscar entregas:") error;;
       res_status_json 500%Z (Message MSG_ERRO_BUSCAR)).

(** Lines 104-131: PUT /api/deliveries/:id/status. *)
Definition MSG_STATUS_OBRIGATORIO : jsstring :=
  js "Status é obrigatório e deve ser " ++ dquote ++ js "S" ++ dquote
  ++ js " ou " ++ dquote ++ js "N" ++ dquote ++ js ".".

Definition MSG_NOME_OBRIGATORIO : jsstring :=
  js "Nome do entregador é obrigatório.".

Definition MSG_ERRO_ATUALIZAR : jsstring :=
  js "Erro interno do servidor ao atualizar status da entrega.".

Definition msg_nao_encontrada (id : jsstring) : jsstring :=
  js "Entrega com ID " ++ id ++ js " não encontrada.".

Definition msg_atualizado (id flag name : jsstring) : jsstring :=
  js "Status da entrega " ++ id ++ js " atualizado para " ++ dquote ++ flag
  ++ dquote ++ js " e entregador definido como " ++ dquote ++ name ++ dquote
  ++ js ".".

Definition put_delivery_status (id : jsstring)
    (req_body : gmap jsstring JSValue) : Js () :=
  let status := property req_body (js "status") in
  let delivererName := property req_body (js "delivererName") in
  bad ← or_else (mret (negb (truthy status)))
          (and_then (u ← call_toUpperCase status; mret (strict_ne u (js "S")))
                    (u ← call_toUpperCase status; mret (strict_ne u (js "N"))));
  (if bad : bool then
     res_status_json 400%Z (Message MSG_STATUS_OBRIGATORIO);;
     return_
   else mret ());;
  bad ← or_else (mret (negb (truthy delivererName)))
          (or_else (mret (strict_ne (typeof delivererName) (js "string")))
                   (t ← call_trim delivererName; mret (strict_eq t [])));
  (if bad : bool then
     res_status_json 400%Z (Message MSG_NOME_OBRIGATORIO);;
     return_
   else mret ());;
  try_catch
    (flag ← call_toUpperCase status;
     name ← call_trim delivererName;
     result ← pool_execute UPDATE_ENTREGAS
                [JSString flag; JSString name; JSString id];
     (if affectedRows_is_0 result then
        res_status_json 404%Z (Message (msg_nao_encontrada id));;
        return_
      else mret ());;
     flag ← call_toUpperCase status;
     name ← call_trim delivererName;
     res_json (Message (msg_atualizado id flag name)))
    (fun error =>
       console_error (js "Erro ao atualizar status da entrega:") error;;
       res_status_json 500%Z (Message MSG_ERRO_ATUALIZAR)).

(** The router: the handler of the route the request matched; a request
    that matches none is left to Express. *)
Definition route (req : Request) : Js () :=
  match req with
  | GET_api_deliveries query => get_deliveries query
  | PUT_api_deliveries_id_status id body => put_delivery_status id body
  | NoRoute => mret ()
  end.

(** The application below line 14, for a request that express.json()
    has handed on: the connection check, whose [next()] starts the
    async handler of the route.  Line 14 itself, and what it does not
    hand on, is [server_js] further down. *)
Definition app (req : Request) : Js () :=
  check_connection (async_call (route req)).

(** One request from start to end, with a fresh [res]. *)
Definition serve (req : Request) (w : World) : World :=
  snd (app req (set_sent None w)).

(** ** A server and a table for the examples *)

(** Decimal digits, as the [:id] segment of a path has them. *)
Fixpoint decimal_from (acc : Z) (s : jsstring) : option Z :=
  match s with
  | [] => Some acc
  | c :: rest =>
    if (48 <=? c) && (c <=? 57)
    then decimal_from (acc * 10 + Z.of_N (c - 48))%Z rest
    else None
  end.

Definition decimal (s : jsstring) : option Z :=
  match s with
  | [] => None
  | _ => decimal_from 0%Z s
  end.

(** An integer column against a bound text: equal when the text is the
    decimal writing of the integer. *)
Definition int_eq_text (stored : SqlValue) (bound : JSValue) : bool :=
  match stored, bound with
  | SqlInt n, JSString s => bool_decide (decimal s = Some n)
  | _, _ => false
  end.

(** A server that is up, accepts every statement, and answers a SELECT
    with the whole table. *)
Definition server_up : MySQL :=
  {| connects := true;
     fails := fun _ _ => false;
     where_eq := int_eq_text;
     select := fun _ _ t => t |}.

(** The same server when the pool cannot give a connection. *)
Definition server_down : MySQL :=
  {| connects := false;
     fails := fun _ _ => true;
     where_eq := int_eq_text;
     select := fun _ _ t => t |}.

(** The number 1 of a JSON body, as a binary64. *)
Definition number_1 : JSValue :=
  JSNumber (S754_finite false 4503599627370496 (-52)).

Definition row7 : Row :=
  {| ID_ENTREGA := SqlInt 7; EMISSAO := SqlText (js "2024-05-02");
     CAIXA := SqlInt 3; COO := SqlInt 1201;
     ENTREGUE := SqlText (js "N"); NOME := SqlNull |}.

Definition row8 : Row :=
  {| ID_ENTREGA := SqlInt 8; EMISSAO := SqlText (js "2024-05-03");
     CAIXA := SqlInt 4; COO := SqlInt 1202;
     ENTREGUE := SqlText (js "S"); NOME := SqlText (js "Ana") |}.

Definition world0 : World :=
  {| mysql := server_up; entregas := [row7; row8]; trace := []; sent := None |}.

Definition world_down : World :=
  {| mysql := server_down; entregas := [row7; row8]; trace := []; sent := None |}.

(** ** The read statement as the specification words it

    A base predicate that is always true, and one clause for each
    parameter that is present, joined by AND, in the order start date,
    end date, point of sale, status; every value is bound, the point of
    sale twice.  A parameter is present when the handler finds a value
    for it that is not the empty string (what a query string parses to
    is a text, an array or an object, and of these only the empty text
    is falsy). *)

Definition present (v : JSValue) : bool := truthy v.

Definition filter_clauses (req_query : gmap jsstring JSValue)
  : list (jsstring * list JSValue) :=
  let startDate := property req_query (js "startDate") in
  let endDate := property req_query (js "endDate") in
  let pdv := property req_query (js "pdv") in
  let status := property req_query (js "status") in
  (if present startDate then [(js "EMISSAO >= ?", [startDate])] else [])
  ++ (if present endDate then [(js "EMISSAO <= ?", [endDate])] else [])
  ++ (if present pdv then [(js "(CAIXA = ? OR COO = ?)", [pdv; pdv])] else [])
  ++ (match status with
      | JSString s =>
        if present status
        then [(js "ENTREGUE = ?", [JSString (toUpperCase s)])]
        else []
      | _ => []
      end).

Definition conjunction (base : jsstring) (clauses : list jsstring) : jsstring :=
  base ++ flat_map (fun clause => js " AND " ++ clause) clauses.

Definition spec_select (req_query : gmap jsstring JSValue) : jsstring :=
  js "SELECT * FROM entregas WHERE "
  ++ conjunction (js "1=1") (map fst (filter_clauses req_query)).

Definition spec_values (req_query : gmap jsstring JSValue) : list JSValue :=
  flat_map snd (filter_clauses req_query).

(** ** Validity of the inputs *)

(** A status that is text and whose upper case is S or N. *)
Definition status_S_or_N (v : JSValue) : Prop :=
  exists s, v = JSString s /\ (toUpperCase s = js "S" \/ toUpperCase s = js "N").

(** A deliverer name that is text and not blank. *)
Definition name_not_blank (v : JSValue) : Prop :=
  exists n, v = JSString n /\ trim n <> [].

(** The delivered flag of a row is S or N. *)
Definition flag_S_or_N (r : Row) : Prop :=
  ENTREGUE r = SqlText (js "S") \/ ENTREGUE r = SqlText (js "N").

(** ** The two database steps of the handlers

    What is left of each handler once its input has passed validation:
    the [try] block with its [catch]. *)

Definition read_and_answer (sql : jsstring) (values : list JSValue) : Js () :=
  try_catch
    (rows ← pool_execute sql values;
     res_json (Data rows))
    (fun error =>
       console_error (js "Erro ao buscar entregas:") error;;
       res_status_json 500%Z (Message MSG_ERRO_BUSCAR)).

Definition update_and_answer (id flag name : jsstring) : Js () :=
  try_catch
    (result ← pool_execute UPDATE_ENTREGAS
                [JSString flag; JSString name; JSString id];
     (if affectedRows_is_0 result then
        res_status_json 404%Z (Message (msg_nao_encontrada id));;
        return_
      else mret ());;
     res_json (Message (msg_atualizado id flag name)))
    (fun error =>
       console_error (js "Erro ao atualizar status da entrega:") error;;
       res_status_json 500%Z (Message MSG_ERRO_ATUALIZAR)).

(** The four parameters the read handler looks at. *)
Definition read_parameters : list jsstring :=
  [js "startDate"; js "endDate"; js "pdv"; js "status"].

(** ** What a request leaves behind *)

(** The world after the connection check, when the pool gave no
    connection and when it gave one. *)
Definition connection_refused (w : World) : World :=
  set_sent (Some (mkResponse 500 (Message MSG_CONNECTION)))
    (log (ConsoleError (js "Erro ao conectar ao banco de dados:") MySQLError)
       (log PoolGetConnection w)).

Definition connection_checked (w : World) : World :=
  log ConnectionRelease (log PoolGetConnection w).

(** What serving a request may do to the server and the table: send
    statements, of which every UPDATE binds S or N as the flag, and
    leave the table as it was or as such an UPDATE makes it. *)
Definition writes_S_or_N (w w' : World) : Prop :=
  mysql w' = mysql w
  /\ (exists stmts,
        executed (trace w') = executed (trace w) ++ stmts
        /\ forall values, (UPDATE_ENTREGAS, values) ∈ stmts ->
             exists flag name id,
               values = [JSString flag; JSString name; JSString id]
               /\ (flag = js "S" \/ flag = js "N"))
  /\ (entregas w' = entregas w
      \/ exists flag name id,
           (flag = js "S" \/ flag = js "N")
           /\ entregas w'
              = sql_update (where_eq (mysql w)) flag name id (entregas w)).

(** ** Every way a request can end

    The world a routed request leaves behind, from the world [w1] its
    handler starts in: one constructor for each path through the
    handlers of lines 51-93 and 104-131. *)

Definition status_not_text (v : JSValue) : Prop :=
  truthy v = true /\ forall s, v <> JSString s.

Definition status_text_not_S_N (v : JSValue) : Prop :=
  exists s, v = JSString s /\ s <> []
            /\ toUpperCase s <> js "S" /\ toUpperCase s <> js "N".

Definition rejected_by (e : JSError) (w : World) : World :=
  log (HandlerRejected e) w.

Definition answered (code : Z) (b : Body) (w : World) : World :=
  set_sent (Some (mkResponse code b)) w.

Inductive Outcome (w1 : World) : Request -> World -> Prop :=
| no_route :
    Outcome w1 NoRoute w1
| read_400 (q : gmap jsstring JSValue) :
    status_text_not_S_N (property q (js "status")) ->
    Outcome w1 (GET_api_deliveries q)
      (answered 400 (Message MSG_STATUS_INVALIDO) w1)
| read_throws (q : gmap jsstring JSValue) :
    status_not_text (property q (js "status")) ->
    Outcome w1 (GET_api_deliveries q)
      (rejected_by (TypeError (js "toUpperCase")) w1)
| read_500 (q : gmap jsstring JSValue) :
    truthy (property q (js "status")) = false
    \/ status_S_or_N (property q (js "status")) ->
    fails (mysql w1) (spec_select q) (spec_values q) = true ->
    Outcome w1 (GET_api_deliveries q)
      (answered 500 (Message MSG_ERRO_BUSCAR)
         (log (ConsoleError (js "Erro ao buscar entregas:") MySQLError)
            (log (PoolExecute (spec_select q) (spec_values q)) w1)))
| read_200 (q : gmap jsstring JSValue) :
    truthy (property q (js "status")) = false
    \/ status_S_or_N (property q (js "status")) ->
    fails (mysql w1) (spec_select q) (spec_values q) = false ->
    Outcome w1 (GET_api_deliveries q)
      (answered 200
         (Data (RowSet (select (mysql w1) (spec_select q) (spec_values q)
                          (entregas w1))))
         (log (PoolExecute (spec_select q) (spec_values q)) w1))
| update_400_status (id : jsstring) (b : gmap jsstring JSValue) :
    truthy (property b (js "status")) = false
    \/ status_text_not_S_N (property b (js "status")) ->
    Outcome w1 (PUT_api_deliveries_id_status id b)
      (answered 400 (Message MSG_STATUS_OBRIGATORIO) w1)
| update_throws (id : jsstring) (b : gmap jsstring JSValue) :
    status_not_text (property b (js "status")) ->
    Outcome w1 (PUT_api_deliveries_id_status id b)
      (rejected_by (TypeError (js "toUpperCase")) w1)
| update_400_name (id : jsstring) (b : gmap jsstring JSValue) :
    status_S_or_N (property b (js "status")) ->
    ~ name_not_blank (property b (js "delivererName")) ->
    Outcome w1 (PUT_api_deliveries_id_status id b)
      (answered 400 (Message MSG_NOME_OBRIGATORIO) w1)
| update_500 (id : jsstring) (b : gmap jsstring JSValue) (s n : jsstring) :
    property b (js "status") = JSString s ->
    toUpperCase s = js "S" \/ toUpperCase s = js "N" ->
    property b (js "delivererName") = JSString n ->
    trim n <> [] ->
    let values := [JSString (toUpperCase s); JSString (trim n); JSString id] in
    fails (mysql w1) UPDATE_ENTREGAS values = true ->
    Outcome w1 (PUT_api_deliveries_id_status id b)
      (answered 500 (Message MSG_ERRO_ATUALIZAR)
         (log (ConsoleError (js "Erro ao atualizar status da entrega:")
                 MySQLError)
            (log (PoolExecute UPDATE_ENTREGAS values) w1)))
| update_404 (id : jsstring) (b : gmap jsstring JSValue) (s n : jsstring) :
    property b (js "status") = JSString s ->
    toUpperCase s = js "S" \/ toUpperCase s = js "N" ->
    property b (js "delivererName") = JSString n ->
    trim n <> [] ->
    let values := [JSString (toUpperCase s); JSString (trim n); JSString id] in
    fails (mysql w1) UPDATE_ENTREGAS values = false ->
    rows_matched (where_eq (mysql w1)) (JSString id) (entregas w1) = 0%nat ->
    Outcome w1 (PUT_api_deliveries_id_status id b)
      (answered 404 (Message (msg_nao_encontrada id))
         (log (PoolExecute UPDATE_ENTREGAS values) w1))
| update_200 (id : jsstring) (b : gmap jsstring JSValue) (s n : jsstring) :
    property b (js "status") = JSString s ->
    toUpperCase s = js "S" \/ toUpperCase s = js "N" ->
    property b (js "delivererName") = JSString n ->
    trim n <> [] ->
    let values := [JSString (toUpperCase s); JSString (trim n); JSString id] in
    fails (mysql w1) UPDATE_ENTREGAS values = false ->
    rows_matched (where_eq (mysql w1)) (JSString id) (entregas w1) <> 0%nat ->
    Outcome w1 (PUT_api_deliveries_id_status id b)
      (answered 200 (Message (msg_atualizado id (toUpperCase s) (trim n)))
         (set_entregas
            (sql_update (where_eq (mysql w1)) (toUpperCase s) (trim n)
               (JSString id) (entregas w1))
            (log (PoolExecute UPDATE_ENTREGAS values) w1))).

(** The status a request carries, in its query string or in its body. *)
Definition request_status (req : Request) : JSValue :=
  match req with
  | GET_api_deliveries q => property q (js "status")
  | PUT_api_deliveries_id_status _ b => property b (js "status")
  | NoRoute => JSUndefined
  end.

(** How often [console.error] was called. *)
Fixpoint errors_logged (t : list Event) : nat :=
  match t with
  | [] => 0
  | ConsoleError _ _ :: rest => S (errors_logged rest)
  | _ :: rest => errors_logged rest
  end.

(** The number of [?] in a statement. *)
Definition placeholders (sql : jsstring) : nat :=
  length (List.filter (fun c => c =? 63) sql).


(** The status code of the answer, if there is one. *)
Definition answer_code (w : World) : option Z := statusCode <$> sent w.

(** A server that gives connections and fails every statement. *)
Definition server_failing : MySQL :=
  {| connects := true;
     fails := fun _ _ => true;
     where_eq := int_eq_text;
     select := fun _ _ t => t |}.

Definition world_failing : World :=
  {| mysql := server_failing; entregas := [row7; row8]; trace := [];
     sent := None |}.

(** The UPDATE statements among the statements of a trace. *)
Definition updates_sent (t : list Event) : list (jsstring * list JSValue) :=
  List.filter (fun stmt => bool_decide (fst stmt = UPDATE_ENTREGAS))
    (executed t).

(** A code unit that [trim] takes away. *)
Definition white (c : N) : Prop := is_white_space c = true.

(** [name] is [given] without the white space at its two ends, and is
    not empty. *)
Definition trimmed_of (given name : jsstring) : Prop :=
  name <> []
  /\ (forall c, head name = Some c -> is_white_space c = false)
  /\ (forall c, last name = Some c -> is_white_space c = false)
  /\ exists pre post,
       given = pre ++ name ++ post /\ Forall white pre /\ Forall white post.

(** ** Line 14 and what reaches the code below it

    [app.use(express.json())] is registered before everything else of
    server.js.  It hands a request on with [req.body] parsed, or it
    passes an error to Express (a body that does not parse, or one that
    is too large); Express then skips the connection check and the
    routes, which are no error handlers, and answers by itself.  A
    request that brings no JSON body is handed on with the empty object
    as [req.body] by Express 4 and with [req.body] undefined by
    Express 5; line 106 destructures [req.body], which throws a
    TypeError on undefined.

    [sent] and the [ConsoleError] events of the trace are what the code
    of server.js sends and logs.  What Express does by itself, for a
    body it refuses or for the rejected promise of a handler (nothing
    under Express 4, an answer 500 of its own under Express 5), is not
    code of server.js and is not recorded. *)
Inductive Arrival : Type :=
| HandedOn (req : Request)
| PUT_body_undefined (id : jsstring)
| RefusedByBodyParser.

Definition server_js (a : Arrival) : Js () :=
  match a with
  | HandedOn req => app req
  | PUT_body_undefined id =>
    check_connection (async_call (throw (TypeError (js "status"))))
  | RefusedByBodyParser => mret ()
  end.

Definition arrive (a : Arrival) (w : World) : World :=
  snd (server_js a (set_sent None w)).

(** The arrivals on which an exception leaves the handler. *)
Definition leaves_handler (a : Arrival) : Prop :=
  match a with
  | HandedOn req => status_not_text (request_status req)
  | PUT_body_undefined _ => True
  | RefusedByBodyParser => False
  end.

(** How often the promise of a handler rejected. *)
Fixpoint rejections (t : list Event) : nat :=
  match t with
  | [] => 0
  | HandlerRejected _ :: rest => S (rejections rest)
  | _ :: rest => rejections rest
  end.

(** * Properties *)

Ltac js_unfold :=
  cbv [mbind Js_bind mret Js_ret or_else and_then try_catch return_ throw
       call_toUpperCase call_trim res_json res_status_json console_error].

(** ** Strings *)

Example js_ascii : js "Maria" = [77; 97; 114; 105; 97].
Proof. reflexivity. Qed.

Example js_latin1 : js "não" = [110; 227; 111].
Proof. reflexivity. Qed.

Example toUpperCase_s : toUpperCase (js "s") = js "S".
Proof. reflexivity. Qed.

Example trim_Maria : trim (js "  Maria  ") = js "Maria".
Proof. reflexivity. Qed.

Lemma strict_eq_true (a b : jsstring) : a = b -> strict_eq a b = true.
Proof. intros ->. unfold strict_eq. by rewrite bool_decide_eq_true. Qed.

Lemma strict_eq_false (a b : jsstring) : a <> b -> strict_eq a b = false.
Proof. intros Hne. unfold strict_eq. by rewrite bool_decide_eq_false. Qed.

Lemma upper_unit_length (c : N) : (1 <= length (upper_unit c))%nat.
Proof. unfold upper_unit. repeat case_match; simpl; lia. Qed.

Lemma toUpperCase_length (s : jsstring) :
  (length s <= length (toUpperCase s))%nat.
Proof.
  unfold toUpperCase. induction s as [|c rest IH]; [done|]. simpl.
  rewrite length_app. pose proof (upper_unit_length c). lia.
Qed.

Lemma upper_unit_ascii (c u : N) :
  u < 128 ->
  upper_unit c = [u] <->
  (c = u /\ ~ (97 <= u <= 122)) \/ (c = u + 32 /\ 65 <= u <= 90)
  \/ (c = 305 /\ u = 73) \/ (c = 383 /\ u = 83).
Proof.
  intros Hu. unfold upper_unit.
  repeat case_match;
    repeat match goal with
           | H : _ && _ = true |- _ => apply andb_prop in H as [? ?]
           | H : _ && _ = false |- _ => apply andb_false_iff in H as [?|?]
           | H : negb _ = true |- _ => apply negb_true_iff in H
           | H : negb _ = false |- _ => apply negb_false_iff in H
           | H : (_ <=? _) = true |- _ => apply N.leb_le in H
           | H : (_ <=? _) = false |- _ => apply N.leb_gt in H
           | H : (_ =? _) = true |- _ => apply N.eqb_eq in H
           | H : (_ =? _) = false |- _ => apply N.eqb_neq in H
           end;
    (split; [intros Heq; try discriminate Heq; injection Heq as Heq; lia
            | intros Hc; try (f_equal; lia); exfalso; lia]).
Qed.

(** The statuses the checks of lines 78 and 109 let through: s, S and
    the long s (U+017F) for S; n and N for N. *)
Lemma toUpperCase_S_iff (s : jsstring) :
  toUpperCase s = js "S" <-> s = js "s" \/ s = js "S" \/ s = [383].
Proof.
  change (js "S") with [83]. change (js "s") with [115]. split.
  - intros Hup. pose proof (toUpperCase_length s) as Hlen.
    rewrite Hup in Hlen. simpl in Hlen.
    destruct s as [|c [|c' rest]]; [discriminate Hup| |simpl in Hlen; lia].
    unfold toUpperCase in Hup. simpl in Hup. rewrite app_nil_r in Hup.
    apply (upper_unit_ascii c 83) in Hup; [|lia].
    destruct Hup as [[-> _] | [[-> _] | [[_ ?] | [-> _]]]]; auto. lia.
  - intros [-> | [-> | ->]]; reflexivity.
Qed.

Lemma toUpperCase_N_iff (s : jsstring) :
  toUpperCase s = js "N" <-> s = js "n" \/ s = js "N".
Proof.
  change (js "N") with [78]. change (js "n") with [110]. split.
  - intros Hup. pose proof (toUpperCase_length s) as Hlen.
    rewrite Hup in Hlen. simpl in Hlen.
    destruct s as [|c [|c' rest]]; [discriminate Hup| |simpl in Hlen; lia].
    unfold toUpperCase in Hup. simpl in Hup. rewrite app_nil_r in Hup.
    apply (upper_unit_ascii c 78) in Hup; [|lia].
    destruct Hup as [[-> _] | [[-> _] | [[_ ?] | [_ ?]]]]; auto; lia.
  - intros [-> | ->]; reflexivity.
Qed.

Lemma status_S_or_N_truthy (v : JSValue) : status_S_or_N v -> truthy v = true.
Proof.
  intros (s & -> & Hup). simpl.
  destruct s as [|c rest]; [|done].
  destruct Hup as [Hup|Hup]; discriminate Hup.
Qed.

Lemma name_not_blank_truthy (v : JSValue) : name_not_blank v -> truthy v = true.
Proof.
  intros (n & -> & Hn). simpl.
  destruct n as [|c rest]; [|done].
  by destruct Hn.
Qed.

(** ** Traces *)

Lemma executed_app (t1 t2 : list Event) :
  executed (t1 ++ t2) = executed t1 ++ executed t2.
Proof.
  induction t1 as [|e t1 IH]; [done|].
  destruct e; simpl; by rewrite IH.
Qed.

(** ** GET /api/deliveries *)

(** What the [try] block of the read handler does with a statement. *)
Lemma read_and_answer_run (sql : jsstring) (values : list JSValue) (w : World) :
  sql <> UPDATE_ENTREGAS ->
  read_and_answer sql values w
  = let w1 := log (PoolExecute sql values) w in
    if fails (mysql w) sql values
    then (Normal (),
          set_sent (Some (mkResponse 500 (Message MSG_ERRO_BUSCAR)))
            (log (ConsoleError (js "Erro ao buscar entregas:") MySQLError) w1))
    else (Normal (),
          set_sent (Some (mkResponse 200
                            (Data (RowSet (select (mysql w) sql values
                                             (entregas w)))))) w1).
Proof.
  intros Hsql. unfold read_and_answer, pool_execute. js_unfold. simpl.
  destruct (fails (mysql w) sql values); [done|].
  by rewrite bool_decide_eq_false_2.
Qed.

Lemma spec_select_not_update (req_query : gmap jsstring JSValue) :
  spec_select req_query <> UPDATE_ENTREGAS.
Proof.
  unfold spec_select.
  generalize (conjunction (js "1=1") (map fst (filter_clauses req_query))).
  intros rest Heq. vm_compute in Heq. discriminate Heq.
Qed.

(** Once the status parameter is out of the way, the handler is the
    [try] block on the statement the specification describes. *)
Lemma get_deliveries_passes (req_query : gmap jsstring JSValue) (w : World) :
  truthy (property req_query (js "status")) = false
  \/ status_S_or_N (property req_query (js "status")) ->
  get_deliveries req_query w
  = read_and_answer (spec_select req_query) (spec_values req_query) w.
Proof.
  unfold get_deliveries, spec_select, spec_values, filter_clauses, present.
  generalize (property req_query (js "startDate")) as startDate.
  generalize (property req_query (js "endDate")) as endDate.
  generalize (property req_query (js "pdv")) as pdv.
  generalize (property req_query (js "status")) as status.
  intros status pdv endDate startDate [Hfalsy | Hvalid].
  - rewrite Hfalsy.
    destruct (truthy startDate), (truthy endDate), (truthy pdv), status;
      unfold read_and_answer; vm_compute; reflexivity.
  - pose proof (status_S_or_N_truthy _ Hvalid) as Ht.
    destruct Hvalid as (s & -> & Hup). rewrite Ht.
    assert (HSS : strict_eq (js "S") (js "S") = true) by reflexivity.
    assert (HNS : strict_eq (js "N") (js "S") = false) by reflexivity.
    assert (HNN : strict_eq (js "N") (js "N") = true) by reflexivity.
    destruct (truthy startDate), (truthy endDate), (truthy pdv);
      destruct Hup as [Hup | Hup]; unfold read_and_answer; js_unfold;
      rewrite Hup, ?HSS, ?HNS, ?HNN; vm_compute; reflexivity.
Qed.

(** The status parameter is a text, not empty, other than S and N in
    either case: line 82. *)
Lemma get_deliveries_rejects (req_query : gmap jsstring JSValue)
    (s : jsstring) (w : World) :
  property req_query (js "status") = JSString s ->
  s <> [] ->
  toUpperCase s <> js "S" ->
  toUpperCase s <> js "N" ->
  get_deliveries req_query w
  = (Return, set_sent (Some (mkResponse 400 (Message MSG_STATUS_INVALIDO))) w).
Proof.
  intros Hstatus Hs HS HN. unfold get_deliveries. rewrite Hstatus.
  assert (Ht : truthy (JSString s) = true).
  { simpl. by rewrite bool_decide_eq_false_2. }
  rewrite Ht.
  destruct (truthy (property req_query (js "startDate")));
    destruct (truthy (property req_query (js "endDate")));
    destruct (truthy (property req_query (js "pdv")));
    js_unfold; rewrite (strict_eq_false _ _ HS), (strict_eq_false _ _ HN);
    reflexivity.
Qed.

(** The handler reads its four parameters only; two query objects that
    give it the same values, or values that are both falsy, are handled
    alike. *)
Lemma get_deliveries_ext (q1 q2 : gmap jsstring JSValue) (w : World) :
  (forall key, key ∈ read_parameters ->
     property q1 key = property q2 key
     \/ (truthy (property q1 key) = false /\ truthy (property q2 key) = false)) ->
  get_deliveries q1 w = get_deliveries q2 w.
Proof.
  intros Hsame.
  assert (Hin : forall key, In key read_parameters -> key ∈ read_parameters).
  { intros key. apply list_elem_of_In. }
  pose proof (Hsame (js "startDate") (Hin _ (or_introl eq_refl))) as H1.
  pose proof (Hsame (js "endDate") (Hin _ (or_intror (or_introl eq_refl)))) as H2.
  pose proof (Hsame (js "pdv")
                (Hin _ (or_intror (or_intror (or_introl eq_refl))))) as H3.
  pose proof (Hsame (js "status")
                (Hin _ (or_intror (or_intror (or_intror (or_introl eq_refl))))))
    as H4.
  clear Hin Hsame. unfold get_deliveries.
  revert H1 H2 H3 H4.
  generalize (property q1 (js "startDate")) (property q2 (js "startDate")).
  generalize (property q1 (js "endDate")) (property q2 (js "endDate")).
  generalize (property q1 (js "pdv")) (property q2 (js "pdv")).
  generalize (property q1 (js "status")) (property q2 (js "status")).
  intros s1 s2 p1 p2 e1 e2 d1 d2 H1 H2 H3 H4.
  destruct H1 as [-> | [-> ->]], H2 as [-> | [-> ->]],
           H3 as [-> | [-> ->]], H4 as [-> | [-> ->]]; reflexivity.
Qed.

Example read_statement_none :
  spec_select ∅ = js "SELECT * FROM entregas WHERE 1=1" /\ spec_values ∅ = [].
Proof. split; vm_compute; reflexivity. Qed.

Example read_statement_all_four :
  let q : gmap jsstring JSValue :=
    {[ js "startDate" := JSString (js "2024-05-01");
       js "endDate" := JSString (js "2024-05-31");
       js "pdv" := JSString (js "3");
       js "status" := JSString (js "n") ]} in
  spec_select q
  = js "SELECT * FROM entregas WHERE 1=1 AND EMISSAO >= ? AND EMISSAO <= ? AND (CAIXA = ? OR COO = ?) AND ENTREGUE = ?"
  /\ spec_values q
     = [JSString (js "2024-05-01"); JSString (js "2024-05-31");
        JSString (js "3"); JSString (js "3"); JSString (js "N")].
Proof. split; vm_compute; reflexivity. Qed.

(** C1.  Whatever combination of startDate, endDate, pdv and status the
    query string carries (none of them included), a read request whose
    status, when present, is S or N in either case sends the server
    exactly one statement: the SELECT on entregas whose predicate is 1=1
    joined by AND with the clauses of the parameters that are present and
    of no other, in the order start date, end date, point of sale,
    status, and whose bound values follow that order, the point of sale
    twice and the status in upper case. *)
Theorem read_statement_built (req_query : gmap jsstring JSValue) (w : World) :
  truthy (property req_query (js "status")) = false
  \/ status_S_or_N (property req_query (js "status")) ->
  executed (trace (snd (get_deliveries req_query w)))
  = executed (trace w) ++ [(spec_select req_query, spec_values req_query)].
Proof.
  intros Hstatus.
  rewrite (get_deliveries_passes _ _ Hstatus).
  rewrite (read_and_answer_run _ _ _ (spec_select_not_update req_query)).
  cbv zeta. destruct (fails _ _ _); simpl.
  - rewrite !executed_app. simpl. by rewrite app_nil_r.
  - by rewrite executed_app.
Qed.

Lemma read_statement_built_witness :
  executed (trace (snd (get_deliveries
                          {[ js "startDate" := JSString (js "2024-05-01");
                             js "pdv" := JSString (js "3");
                             js "status" := JSString (js "s") ]} world0)))
  = [(js "SELECT * FROM entregas WHERE 1=1 AND EMISSAO >= ? AND (CAIXA = ? OR COO = ?) AND ENTREGUE = ?",
      [JSString (js "2024-05-01"); JSString (js "3"); JSString (js "3");
       JSString (js "S")])].
Proof.
  refine (eq_trans (read_statement_built _ world0 _) _).
  - right. exists (js "s"). split; [vm_compute; reflexivity|].
    left. vm_compute. reflexivity.
  - vm_compute. reflexivity.
Defined.

(** Where the status of a read request is a text: a text that is not
    empty and whose upper case is neither S nor N is answered 400 with
    the message of line 82, and nothing else happens: no statement is
    sent and the table is as it was. *)
Theorem read_rejects_status_outside_S_N (req_query : gmap jsstring JSValue)
    (s : jsstring) (w : World) :
  property req_query (js "status") = JSString s ->
  s <> [] ->
  toUpperCase s <> js "S" ->
  toUpperCase s <> js "N" ->
  let w' := snd (get_deliveries req_query w) in
  sent w' = Some (mkResponse 400 (Message MSG_STATUS_INVALIDO))
  /\ trace w' = trace w
  /\ entregas w' = entregas w.
Proof.
  intros Hstatus Hs HS HN w'. subst w'.
  by rewrite (get_deliveries_rejects _ s w Hstatus Hs HS HN).
Qed.

Lemma read_rejects_status_outside_S_N_witness :
  let w' := snd (get_deliveries {[ js "status" := JSString (js "x") ]} world0) in
  sent w' = Some (mkResponse 400 (Message MSG_STATUS_INVALIDO))
  /\ trace w' = []
  /\ entregas w' = [row7; row8].
Proof.
  apply (read_rejects_status_outside_S_N _ (js "x") world0).
  - vm_compute. reflexivity.
  - discriminate.
  - vm_compute. discriminate.
  - vm_compute. discriminate.
Defined.

(** C4.  The read request GET /api/deliveries?status=x&status=y: the
    query parser gives the handler the array of the two values as
    status.  The status is present and no value of it is S or N in
    either case, yet the answer is not the 400 of line 82: the array is
    truthy and has no [toUpperCase], line 78 throws a TypeError outside
    the [try] of lines 86-92, the promise of the handler rejects, and
    the handler sends no answer and no statement. *)
Theorem read_status_array_rejects_without_answer :
  let w' := serve (GET_api_deliveries
                     {[ js "status" := JSArray [JSString (js "x");
                                                JSString (js "y")] ]})
              world0 in
  sent w' = None
  /\ trace w' = [PoolGetConnection; ConnectionRelease;
                 HandlerRejected (TypeError (js "toUpperCase"))]
  /\ entregas w' = entregas world0.
Proof. cbv zeta. repeat split; vm_compute; reflexivity. Qed.

(** C10.  A parameter bound to the empty string is handled as if it were
    not there: with startDate, endDate, pdv or status bound to the empty
    string the handler does what it does without that parameter.  For
    status this means that S/N validation is not applied: the statement
    sent has no status clause, the answer is 200 with the rows when the
    statement succeeds, and it is never 400. *)
Theorem read_treats_empty_as_absent (req_query : gmap jsstring JSValue)
    (w : World) :
  (forall key,
     get_deliveries (<[key := JSString []]> req_query) w
     = get_deliveries (delete key req_query) w)
  /\ (property req_query (js "status") = JSString [] ->
      let q := delete (js "status") req_query in
      let w' := snd (get_deliveries req_query w) in
      executed (trace w')
      = executed (trace w) ++ [(spec_select q, spec_values q)]
      /\ (fails (mysql w) (spec_select q) (spec_values q) = false ->
          sent w' = Some (mkResponse 200
                            (Data (RowSet (select (mysql w) (spec_select q)
                                             (spec_values q) (entregas w))))))
      /\ (forall b, sent w' <> Some (mkResponse 400 b))).
Proof.
  split.
  - intros key. apply get_deliveries_ext. intros key' _.
    unfold property. destruct (decide (key = key')) as [<- | Hne].
    + right. by rewrite lookup_insert_eq, lookup_delete_eq.
    + left. by rewrite lookup_insert_ne, lookup_delete_ne.
  - intros Hempty q w'.
    assert (Hq : get_deliveries req_query w
                 = read_and_answer (spec_select q) (spec_values q) w).
    { rewrite <- get_deliveries_passes.
      - apply get_deliveries_ext. intros key' _. subst q. unfold property.
        destruct (decide (js "status" = key')) as [<- | Hne].
        + right. fold (property req_query (js "status")). rewrite Hempty.
          by rewrite lookup_delete_eq.
        + left. by rewrite lookup_delete_ne.
      - left. subst q. unfold property. by rewrite lookup_delete_eq. }
    subst w'. rewrite Hq.
    rewrite (read_and_answer_run _ _ _ (spec_select_not_update q)).
    cbv zeta. destruct (fails _ _ _); simpl.
    + rewrite !executed_app. simpl. rewrite app_nil_r.
      split; [done|]. split; [done|]. intros b Hb. discriminate Hb.
    + rewrite executed_app. simpl.
      split; [done|]. split; [done|]. intros b Hb. discriminate Hb.
Qed.

Lemma read_treats_empty_as_absent_witness :
  let q : gmap jsstring JSValue :=
    {[ js "pdv" := JSString (js "3"); js "status" := JSString [] ]} in
  let w' := snd (get_deliveries q world0) in
  executed (trace w')
  = [(js "SELECT * FROM entregas WHERE 1=1 AND (CAIXA = ? OR COO = ?)",
      [JSString (js "3"); JSString (js "3")])]
  /\ sent w' = Some (mkResponse 200 (Data (RowSet [row7; row8])))
  /\ get_deliveries (<[js "status" := JSString []]> q) world0
     = get_deliveries (delete (js "status") q) world0.
Proof.
  intros q w'.
  destruct (read_treats_empty_as_absent q world0) as [Habsent Hstatus].
  destruct Hstatus as (Hx & H200 & _).
  - vm_compute. reflexivity.
  - split; [|split].
    + refine (eq_trans Hx _). vm_compute. reflexivity.
    + refine (eq_trans (H200 _) _); reflexivity.
    + apply Habsent.
Defined.

(** ** PUT /api/deliveries/:id/status *)

(** The first check of line 109 fails: the status is falsy, or a text
    whose upper case is neither S nor N. *)
Lemma put_status_rejected (id : jsstring) (req_body : gmap jsstring JSValue)
    (w : World) :
  truthy (property req_body (js "status")) = false
  \/ (exists s, property req_body (js "status") = JSString s
                /\ toUpperCase s <> js "S" /\ toUpperCase s <> js "N") ->
  put_delivery_status id req_body w
  = (Return,
     set_sent (Some (mkResponse 400 (Message MSG_STATUS_OBRIGATORIO))) w).
Proof.
  unfold put_delivery_status.
  generalize (property req_body (js "status")) as status.
  generalize (property req_body (js "delivererName")) as delivererName.
  intros delivererName status [Hfalsy | (s & -> & HS & HN)].
  - js_unfold. by rewrite Hfalsy.
  - js_unfold. unfold strict_ne.
    rewrite (strict_eq_false _ _ HS), (strict_eq_false _ _ HN).
    by destruct (truthy (JSString s)).
Qed.

(** The first check of line 109 on a status that is truthy and not a
    text: [status.toUpperCase] is not a function, and the exception
    leaves the handler, which is outside any [try] there. *)
Lemma put_status_throws (id : jsstring) (req_body : gmap jsstring JSValue)
    (w : World) :
  truthy (property req_body (js "status")) = true ->
  (forall s, property req_body (js "status") <> JSString s) ->
  put_delivery_status id req_body w = (Throw (TypeError (js "toUpperCase")), w).
Proof.
  unfold put_delivery_status.
  generalize (property req_body (js "status")) as status.
  generalize (property req_body (js "delivererName")) as delivererName.
  intros delivererName status Ht Hns. js_unfold. rewrite Ht. simpl.
  destruct status; try reflexivity. by destruct (Hns s).
Qed.

(** The second check, line 112, once the first has passed. *)
Lemma put_name_rejected (id : jsstring) (req_body : gmap jsstring JSValue)
    (w : World) :
  status_S_or_N (property req_body (js "status")) ->
  ~ name_not_blank (property req_body (js "delivererName")) ->
  put_delivery_status id req_body w
  = (Return,
     set_sent (Some (mkResponse 400 (Message MSG_NOME_OBRIGATORIO))) w).
Proof.
  unfold put_delivery_status.
  generalize (property req_body (js "status")) as status.
  generalize (property req_body (js "delivererName")) as delivererName.
  intros delivererName status Hstatus Hname.
  pose proof (status_S_or_N_truthy _ Hstatus) as Ht.
  destruct Hstatus as (s & -> & Hup).
  assert (Hpass : forall w0,
            or_else (mret (negb (truthy (JSString s))))
              (and_then
                 (u ← call_toUpperCase (JSString s); mret (strict_ne u (js "S")))
                 (u ← call_toUpperCase (JSString s); mret (strict_ne u (js "N"))))
              w0
            = (Normal false, w0)).
  { intros w0. js_unfold. rewrite Ht. simpl. unfold strict_ne.
    destruct Hup as [-> | ->]; reflexivity. }
  unfold mbind at 1, Js_bind at 1. rewrite Hpass.
  destruct delivererName as [| |b|x|n|items|props];
    try (destruct b); try (destruct x); try reflexivity.
  destruct (decide (trim n = [])) as [Hblank | Hnot].
  - js_unfold. cbn [negb]. rewrite Hblank.
    by destruct (truthy (JSString n)).
  - destruct Hname. by exists n.
Qed.

(** A request that passes both checks is the [try] block on the upper
    case of the status and the trimmed name. *)
Lemma put_valid (id : jsstring) (req_body : gmap jsstring JSValue)
    (s n : jsstring) (w : World) :
  property req_body (js "status") = JSString s ->
  toUpperCase s = js "S" \/ toUpperCase s = js "N" ->
  property req_body (js "delivererName") = JSString n ->
  trim n <> [] ->
  put_delivery_status id req_body w
  = update_and_answer id (toUpperCase s) (trim n) w.
Proof.
  intros Hstatus Hup Hname Hn. unfold put_delivery_status.
  rewrite Hstatus, Hname.
  assert (Hts : truthy (JSString s) = true).
  { apply status_S_or_N_truthy. by exists s. }
  assert (Htn : truthy (JSString n) = true).
  { apply name_not_blank_truthy. by exists n. }
  assert (Hstr : strict_ne (typeof (JSString n)) (js "string") = false)
    by reflexivity.
  unfold update_and_answer. js_unfold.
  rewrite Hts, Htn, Hstr. cbn [negb]. unfold strict_ne.
  rewrite (strict_eq_false _ _ Hn). cbn [negb].
  destruct Hup as [Hup | Hup]; rewrite Hup.
  - change (strict_eq (js "S") (js "S")) with true. cbn [negb].
    destruct (pool_execute _ _ w) as [[result| |e] w1]; reflexivity.
  - change (strict_eq (js "N") (js "S")) with false.
    change (strict_eq (js "N") (js "N")) with true. cbn [negb].
    destruct (pool_execute _ _ w) as [[result| |e] w1]; reflexivity.
Qed.

(** What the [try] block of the update handler does. *)
Lemma update_and_answer_run (id flag name : jsstring) (w : World) :
  update_and_answer id flag name w
  = let values := [JSString flag; JSString name; JSString id] in
    let w1 := log (PoolExecute UPDATE_ENTREGAS values) w in
    if fails (mysql w) UPDATE_ENTREGAS values
    then (Normal (),
          set_sent (Some (mkResponse 500 (Message MSG_ERRO_ATUALIZAR)))
            (log (ConsoleError (js "Erro ao atualizar status da entrega:")
                    MySQLError) w1))
    else
      let w2 := set_entregas
                  (sql_update (where_eq (mysql w)) flag name (JSString id)
                     (entregas w)) w1 in
      if (affected_rows FOUND_ROWS (where_eq (mysql w)) flag name
            (JSString id) (entregas w) =? 0)%Z
      then (Return,
            set_sent (Some (mkResponse 404 (Message (msg_nao_encontrada id)))) w2)
      else (Normal (),
            set_sent (Some (mkResponse 200
                              (Message (msg_atualizado id flag name)))) w2).
Proof.
  unfold update_and_answer, pool_execute. js_unfold. cbv zeta.
  change (mysql (log _ w)) with (mysql w).
  change (entregas (log _ w)) with (entregas w).
  destruct (fails (mysql w) UPDATE_ENTREGAS _); [done|].
  rewrite bool_decide_eq_true_2 by done.
  unfold affectedRows_is_0.
  by destruct (affected_rows _ _ _ _ _ _ =? 0)%Z.
Qed.

(** ** The UPDATE on the table *)

Lemma set_delivery_id (flag name : SqlValue) (r : Row) :
  ID_ENTREGA (set_delivery flag name r) = ID_ENTREGA r.
Proof. reflexivity. Qed.

Lemma set_delivery_twice (flag name : SqlValue) (r : Row) :
  set_delivery flag name (set_delivery flag name r) = set_delivery flag name r.
Proof. reflexivity. Qed.

(** The same UPDATE a second time leaves the table as the first left it. *)
Lemma sql_update_idempotent (eq : SqlValue -> JSValue -> bool)
    (flag name : jsstring) (id : JSValue) (t : list Row) :
  sql_update eq flag name id (sql_update eq flag name id t)
  = sql_update eq flag name id t.
Proof.
  unfold sql_update. rewrite map_map. apply map_ext. intros r.
  destruct (eq (ID_ENTREGA r) id) eqn:Hm.
  - by rewrite set_delivery_id, Hm.
  - by rewrite Hm.
Qed.

(** The UPDATE does not touch the column its WHERE clause reads, so it
    matches the same rows before and after. *)
Lemma rows_matched_update (eq : SqlValue -> JSValue -> bool)
    (flag name : jsstring) (id : JSValue) (t : list Row) :
  rows_matched eq id (sql_update eq flag name id t) = rows_matched eq id t.
Proof.
  unfold rows_matched, sql_update.
  induction t as [|r t IH]; [done|]. simpl.
  destruct (eq (ID_ENTREGA r) id) eqn:Hm.
  - rewrite set_delivery_id, Hm. simpl. by rewrite IH.
  - rewrite Hm. apply IH.
Qed.

Lemma rows_matched_0 (eq : SqlValue -> JSValue -> bool)
    (id : JSValue) (t : list Row) :
  rows_matched eq id t = 0%nat <->
  (forall r, r ∈ t -> eq (ID_ENTREGA r) id = false).
Proof.
  unfold rows_matched. induction t as [|r t IH]; simpl.
  - split; [|done]. intros _ r Hr. by apply elem_of_nil in Hr.
  - destruct (eq (ID_ENTREGA r) id) eqn:Hm; simpl.
    + split; [done|]. intros Hall.
      specialize (Hall r ltac:(left)). congruence.
    + rewrite IH. split.
      * intros Hall r' Hr'. apply elem_of_cons in Hr' as [-> | Hr']; auto.
      * intros Hall r' Hr'. apply Hall. by right.
Qed.

(** An UPDATE that matches no row changes no row. *)
Lemma sql_update_no_match (eq : SqlValue -> JSValue -> bool)
    (flag name : jsstring) (id : JSValue) (t : list Row) :
  rows_matched eq id t = 0%nat -> sql_update eq flag name id t = t.
Proof.
  rewrite rows_matched_0. intros Hall. unfold sql_update.
  induction t as [|r t IH]; [done|]. simpl.
  rewrite (Hall r ltac:(left)). f_equal. apply IH.
  intros r' Hr'. apply Hall. by right.
Qed.

(** ** The connection check *)

Lemma async_call_normal (callee : Js ()) (w : World) :
  fst (async_call callee w) = Normal ().
Proof. unfold async_call. by destruct (callee w) as [[[]| |e] w']. Qed.

Lemma check_connection_down (next : Js ()) (w : World) :
  connects (mysql w) = false ->
  check_connection next w = (Normal (), connection_refused w).
Proof.
  intros Hdown. unfold check_connection, pool_getConnection. js_unfold.
  cbv zeta. change (mysql (log _ w)) with (mysql w). by rewrite Hdown.
Qed.

Lemma app_up (req : Request) (w : World) :
  connects (mysql w) = true ->
  app req w = async_call (route req) (connection_checked w).
Proof.
  intros Hup. unfold app, check_connection, pool_getConnection,
    connection_release. js_unfold.
  cbv zeta. change (mysql (log _ w)) with (mysql w). rewrite Hup.
  fold (connection_checked w).
  pose proof (async_call_normal (route req) (connection_checked w)) as Hn.
  destruct (async_call (route req) (connection_checked w)) as [c w'].
  simpl in Hn. by subst c.
Qed.

(** C8.  The connection check runs first on every request.  When the
    pool gives a connection, the check releases it at once and hands the
    request to the handler of its route, which starts in a world where
    just these two things have happened.  When the pool gives none, the
    check logs the error and answers 500, and this is all that happens
    whatever comes next in the chain: no handler runs, for no route,
    reads included. *)
Theorem connection_check_before_every_route (req : Request) (w : World) :
  (connects (mysql w) = true ->
   app req w = async_call (route req) (connection_checked w)
   /\ trace (connection_checked w)
      = trace w ++ [PoolGetConnection; ConnectionRelease])
  /\ (connects (mysql w) = false ->
      (forall next : Js (),
         check_connection next w = (Normal (), connection_refused w))
      /\ app req w = (Normal (), connection_refused w)
      /\ sent (connection_refused w)
         = Some (mkResponse 500 (Message MSG_CONNECTION))
      /\ executed (trace (connection_refused w)) = executed (trace w)
      /\ entregas (connection_refused w) = entregas w).
Proof.
  split.
  - intros Hup. split; [by apply app_up|].
    unfold connection_checked, log. simpl. by rewrite <- app_assoc.
  - intros Hdown. split; [|split; [|split; [|split]]].
    + intros next. by apply check_connection_down.
    + unfold app. by apply check_connection_down.
    + reflexivity.
    + unfold connection_refused, log. simpl.
      rewrite !executed_app. simpl. by rewrite !app_nil_r.
    + reflexivity.
Qed.

Lemma connection_check_before_every_route_witness :
  (sent (serve (GET_api_deliveries ∅) world0)
   = Some (mkResponse 200 (Data (RowSet [row7; row8])))
   /\ trace (serve (GET_api_deliveries ∅) world0)
      = [PoolGetConnection; ConnectionRelease;
         PoolExecute (js "SELECT * FROM entregas WHERE 1=1") []])
  /\ (sent (serve (GET_api_deliveries ∅) world_down)
      = Some (mkResponse 500 (Message MSG_CONNECTION))
      /\ trace (serve (GET_api_deliveries ∅) world_down)
         = [PoolGetConnection;
            ConsoleError (js "Erro ao conectar ao banco de dados:") MySQLError]).
Proof.
  split.
  - destruct (proj1 (connection_check_before_every_route
                       (GET_api_deliveries ∅) (set_sent None world0)))
      as [Happ _]; [reflexivity|].
    unfold serve. rewrite Happ. split; vm_compute; reflexivity.
  - destruct (proj2 (connection_check_before_every_route
                       (GET_api_deliveries ∅) (set_sent None world_down)))
      as (_ & Happ & _); [reflexivity|].
    unfold serve. rewrite Happ. split; vm_compute; reflexivity.
Defined.

(** ** The update statement and its answer *)

(** What the UPDATE does to each row: a row the WHERE clause matches
    gets the flag in ENTREGUE and the name in NOME and keeps its other
    columns; any other row is as it was. *)
Lemma sql_update_rows (eq : SqlValue -> JSValue -> bool)
    (flag name : jsstring) (id : JSValue) (t : list Row) :
  Forall2
    (fun r r' =>
       if eq (ID_ENTREGA r) id
       then ENTREGUE r' = SqlText flag /\ NOME r' = SqlText name
            /\ ID_ENTREGA r' = ID_ENTREGA r /\ EMISSAO r' = EMISSAO r
            /\ CAIXA r' = CAIXA r /\ COO r' = COO r
       else r' = r)
    t (sql_update eq flag name id t).
Proof.
  unfold sql_update. induction t as [|r t IH]; simpl; constructor; [|exact IH].
  by destruct (eq (ID_ENTREGA r) id).
Qed.

(** C6.  An update request that passes validation sends the server
    exactly one statement: the text UPDATE entregas SET ENTREGUE = ?,
    NOME = ? WHERE ID_ENTREGA = ? with three bound values, in this
    order the status in upper case, the deliverer name trimmed, and the
    id of the path.  When the server executes it, every row whose
    ID_ENTREGA the server finds equal to the id has the upper-cased
    status in ENTREGUE and the trimmed name in NOME and keeps its other
    columns, and every other row is as it was. *)
Theorem update_statement_sent (id : jsstring)
    (req_body : gmap jsstring JSValue) (s n : jsstring) (w : World) :
  property req_body (js "status") = JSString s ->
  toUpperCase s = js "S" \/ toUpperCase s = js "N" ->
  property req_body (js "delivererName") = JSString n ->
  trim n <> [] ->
  let sql := js "UPDATE entregas SET ENTREGUE = ?, NOME = ? WHERE ID_ENTREGA = ?" in
  let values := [JSString (toUpperCase s); JSString (trim n); JSString id] in
  let w' := snd (put_delivery_status id req_body w) in
  executed (trace w') = executed (trace w) ++ [(sql, values)]
  /\ (fails (mysql w) sql values = false ->
      Forall2
        (fun r r' =>
           if where_eq (mysql w) (ID_ENTREGA r) (JSString id)
           then ENTREGUE r' = SqlText (toUpperCase s)
                /\ NOME r' = SqlText (trim n)
                /\ ID_ENTREGA r' = ID_ENTREGA r /\ EMISSAO r' = EMISSAO r
                /\ CAIXA r' = CAIXA r /\ COO r' = COO r
           else r' = r)
        (entregas w) (entregas w')).
Proof.
  intros Hstatus Hup Hname Hn sql values w'. subst w'.
  rewrite (put_valid _ _ _ _ _ Hstatus Hup Hname Hn).
  rewrite update_and_answer_run. cbv zeta.
  change UPDATE_ENTREGAS with sql. fold values.
  destruct (fails (mysql w) sql values).
  - split; [|done]. simpl. rewrite !executed_app. simpl.
    by rewrite app_nil_r.
  - split; [|intros _].
    + destruct (_ =? 0)%Z; simpl; by rewrite executed_app.
    + replace (entregas (snd (if (_ =? 0)%Z then _ else _)))
        with (sql_update (where_eq (mysql w)) (toUpperCase s) (trim n)
                (JSString id) (entregas w))
        by (by destruct (_ =? 0)%Z).
      apply sql_update_rows.
Qed.

Lemma update_statement_sent_witness :
  let req_body : gmap jsstring JSValue :=
    {[ js "status" := JSString (js "s");
       js "delivererName" := JSString (js "  Maria  ") ]} in
  let w' := snd (put_delivery_status (js "7") req_body world0) in
  executed (trace w')
  = [(js "UPDATE entregas SET ENTREGUE = ?, NOME = ? WHERE ID_ENTREGA = ?",
      [JSString (js "S"); JSString (js "Maria"); JSString (js "7")])]
  /\ entregas w'
     = [ {| ID_ENTREGA := SqlInt 7; EMISSAO := SqlText (js "2024-05-02");
            CAIXA := SqlInt 3; COO := SqlInt 1201;
            ENTREGUE := SqlText (js "S"); NOME := SqlText (js "Maria") |};
         {| ID_ENTREGA := SqlInt 8; EMISSAO := SqlText (js "2024-05-03");
            CAIXA := SqlInt 4; COO := SqlInt 1202;
            ENTREGUE := SqlText (js "S"); NOME := SqlText (js "Ana") |} ].
Proof.
  intros req_body w'.
  destruct (update_statement_sent (js "7") req_body (js "s") (js "  Maria  ")
              world0) as [Hsent Hstored].
  - vm_compute. reflexivity.
  - left. vm_compute. reflexivity.
  - vm_compute. reflexivity.
  - vm_compute. discriminate.
  - split.
    + refine (eq_trans Hsent _). vm_compute. reflexivity.
    + specialize (Hstored eq_refl). fold w' in Hstored.
      change (entregas world0) with [row7; row8] in Hstored.
      apply Forall2_cons_inv_l in Hstored as (r1 & t1 & H1 & Hrest & ->).
      apply Forall2_cons_inv_l in Hrest as (r2 & t2 & H2 & Hnil & ->).
      apply Forall2_nil_inv_l in Hnil as ->.
      vm_compute in H1. vm_compute in H2.
      destruct H1 as (Hf & Hn & Hi & He & Hc & Ho). subst r2.
      destruct r1 as [i e c o f n]. simpl in *. subst.
      vm_compute. reflexivity.
Defined.



(** A whole update request that goes through: the server is up, the
    payload is valid, the statement is executed and matches a row. *)
Lemma serve_update_ok (id : jsstring) (req_body : gmap jsstring JSValue)
    (s n : jsstring) (w : World) :
  property req_body (js "status") = JSString s ->
  toUpperCase s = js "S" \/ toUpperCase s = js "N" ->
  property req_body (js "delivererName") = JSString n ->
  trim n <> [] ->
  connects (mysql w) = true ->
  fails (mysql w) UPDATE_ENTREGAS
    [JSString (toUpperCase s); JSString (trim n); JSString id] = false ->
  rows_matched (where_eq (mysql w)) (JSString id) (entregas w) <> 0%nat ->
  serve (PUT_api_deliveries_id_status id req_body) w
  = set_sent (Some (mkResponse 200
                      (Message (msg_atualizado id (toUpperCase s) (trim n)))))
      (set_entregas
         (sql_update (where_eq (mysql w)) (toUpperCase s) (trim n)
            (JSString id) (entregas w))
         (log (PoolExecute UPDATE_ENTREGAS
                 [JSString (toUpperCase s); JSString (trim n); JSString id])
            (connection_checked (set_sent None w)))).
Proof.
  intros Hstatus Hup Hname Hn Hconn Hok Hrows. unfold serve.
  rewrite app_up by done. unfold async_call, route.
  rewrite (put_valid _ _ _ _ _ Hstatus Hup Hname Hn).
  rewrite update_and_answer_run. cbv zeta.
  change (mysql (connection_checked (set_sent None w))) with (mysql w).
  change (entregas (connection_checked (set_sent None w))) with (entregas w).
  rewrite Hok.
  assert (H0 : (affected_rows FOUND_ROWS (where_eq (mysql w)) (toUpperCase s)
                  (trim n) (JSString id) (entregas w) =? 0)%Z = false).
  { apply Z.eqb_neq. unfold affected_rows, FOUND_ROWS. lia. }
  by rewrite H0.
Qed.

(** C2.  The same valid update applied twice to a table that has a row
    for the id, on a server that is up and executes the statement, is
    answered 200 both times, the second time as well although it changes
    nothing, and the table after the second is the table after the
    first: the rows of that id carry the flag and the name of the
    payload. *)
Theorem update_twice_same (id : jsstring) (req_body : gmap jsstring JSValue)
    (s n : jsstring) (w : World) :
  property req_body (js "status") = JSString s ->
  toUpperCase s = js "S" \/ toUpperCase s = js "N" ->
  property req_body (js "delivererName") = JSString n ->
  trim n <> [] ->
  connects (mysql w) = true ->
  fails (mysql w) UPDATE_ENTREGAS
    [JSString (toUpperCase s); JSString (trim n); JSString id] = false ->
  (exists r, r ∈ entregas w
             /\ where_eq (mysql w) (ID_ENTREGA r) (JSString id) = true) ->
  let req := PUT_api_deliveries_id_status id req_body in
  let ok := Some (mkResponse 200
                    (Message (msg_atualizado id (toUpperCase s) (trim n)))) in
  let w1 := serve req w in
  let w2 := serve req w1 in
  sent w1 = ok /\ sent w2 = ok /\ entregas w2 = entregas w1
  /\ (forall r, r ∈ entregas w2 ->
        where_eq (mysql w) (ID_ENTREGA r) (JSString id) = true ->
        ENTREGUE r = SqlText (toUpperCase s) /\ NOME r = SqlText (trim n)).
Proof.
  intros Hstatus Hup Hname Hn Hconn Hok (r0 & Hr0 & Hmatch) req ok w1 w2.
  assert (Hrows : rows_matched (where_eq (mysql w)) (JSString id) (entregas w)
                  <> 0%nat).
  { intros H0. rewrite rows_matched_0 in H0.
    specialize (H0 r0 Hr0). congruence. }
  assert (Hw1 : w1 = _)
    by exact (serve_update_ok id req_body s n w Hstatus Hup Hname Hn Hconn
                Hok Hrows).
  assert (Hm1 : mysql w1 = mysql w) by (by rewrite Hw1).
  assert (He1 : entregas w1
                = sql_update (where_eq (mysql w)) (toUpperCase s) (trim n)
                    (JSString id) (entregas w)) by (by rewrite Hw1).
  pose proof (serve_update_ok id req_body s n w1 Hstatus Hup Hname Hn) as Hw2.
  fold req in Hw2. fold w2 in Hw2. rewrite Hm1, He1 in Hw2.
  rewrite rows_matched_update in Hw2.
  specialize (Hw2 Hconn Hok Hrows).
  split; [by rewrite Hw1|]. split; [by rewrite Hw2|].
  assert (He2 : entregas w2 = entregas w1).
  { rewrite Hw2, He1. simpl. apply sql_update_idempotent. }
  split; [exact He2|].
  intros r Hr Hrm. rewrite He2, He1 in Hr. unfold sql_update in Hr.
  apply list_elem_of_fmap in Hr as (r' & -> & _).
  destruct (where_eq (mysql w) (ID_ENTREGA r') (JSString id)) eqn:Hr'.
  - done.
  - congruence.
Qed.

Lemma update_twice_same_witness :
  let req := PUT_api_deliveries_id_status (js "8")
               {[ js "status" := JSString (js "S");
                  js "delivererName" := JSString (js "Ana") ]} in
  let ok := Some (mkResponse 200
                    (Message (msg_atualizado (js "8") (js "S") (js "Ana")))) in
  sent (serve req world0) = ok
  /\ sent (serve req (serve req world0)) = ok
  /\ entregas (serve req (serve req world0)) = entregas (serve req world0)
  /\ entregas (serve req world0) = [row7; row8]
  /\ (ENTREGUE row8 = SqlText (js "S") /\ NOME row8 = SqlText (js "Ana")).
Proof.
  intros req ok.
  destruct (update_twice_same (js "8")
              {[ js "status" := JSString (js "S");
                 js "delivererName" := JSString (js "Ana") ]}
              (js "S") (js "Ana") world0) as (H1 & H2 & Hsame & Hrows).
  - vm_compute. reflexivity.
  - left. vm_compute. reflexivity.
  - vm_compute. reflexivity.
  - vm_compute. discriminate.
  - reflexivity.
  - reflexivity.
  - exists row8. split; [|vm_compute; reflexivity].
    apply list_elem_of_In. right. left. reflexivity.
  - split; [|split; [|split; [|split]]].
    + refine (eq_trans H1 _). vm_compute. reflexivity.
    + refine (eq_trans H2 _). vm_compute. reflexivity.
    + exact Hsame.
    + vm_compute. reflexivity.
    + apply (Hrows row8).
      * apply list_elem_of_In. vm_compute. right. left. reflexivity.
      * vm_compute. reflexivity.
Defined.

(** Without FOUND_ROWS the second of two identical updates would report
    no affected row, since it changes none: the 200 of the second update
    rests on the flag. *)
Remark rows_changed_after_update (eq : SqlValue -> JSValue -> bool)
    (flag name : jsstring) (id : JSValue) (t : list Row) :
  affected_rows false eq flag name id (sql_update eq flag name id t) = 0%Z.
Proof.
  unfold affected_rows, rows_changed, sql_update.
  induction t as [|r t IH]; [done|]. simpl.
  destruct (eq (ID_ENTREGA r) id) eqn:Hm.
  - rewrite set_delivery_id, Hm, set_delivery_twice.
    rewrite bool_decide_eq_true_2 by done. simpl. apply IH.
  - rewrite Hm. simpl. apply IH.
Qed.

(** ** Every way a request can go *)

Lemma status_cases (v : JSValue) :
  truthy v = false
  \/ status_S_or_N v
  \/ (exists s, v = JSString s /\ s <> []
                /\ toUpperCase s <> js "S" /\ toUpperCase s <> js "N")
  \/ (truthy v = true /\ forall s, v <> JSString s).
Proof.
  destruct (truthy v) eqn:Ht; [|by left]. right.
  destruct v as [| |b|x|s|items|props];
    try (right; right; split; [done | intros s0 Heq; discriminate Heq]).
  destruct (decide (toUpperCase s = js "S")) as [HS | HS].
  { left. exists s. auto. }
  destruct (decide (toUpperCase s = js "N")) as [HN | HN].
  { left. exists s. auto. }
  right. left. exists s. repeat split; try done.
  intros ->. discriminate Ht.
Qed.

Lemma get_deliveries_throws (req_query : gmap jsstring JSValue) (w : World) :
  truthy (property req_query (js "status")) = true ->
  (forall s, property req_query (js "status") <> JSString s) ->
  get_deliveries req_query w = (Throw (TypeError (js "toUpperCase")), w).
Proof.
  unfold get_deliveries.
  generalize (property req_query (js "startDate")) as startDate.
  generalize (property req_query (js "endDate")) as endDate.
  generalize (property req_query (js "pdv")) as pdv.
  generalize (property req_query (js "status")) as status.
  intros status pdv endDate startDate Ht Hns. rewrite Ht.
  destruct (truthy startDate), (truthy endDate), (truthy pdv);
    destruct status; try reflexivity; by destruct (Hns s).
Qed.

Lemma get_deliveries_cases (req_query : gmap jsstring JSValue) (w : World) :
  get_deliveries req_query w
  = read_and_answer (spec_select req_query) (spec_values req_query) w
  \/ get_deliveries req_query w
     = (Return, set_sent (Some (mkResponse 400 (Message MSG_STATUS_INVALIDO))) w)
  \/ get_deliveries req_query w = (Throw (TypeError (js "toUpperCase")), w).
Proof.
  destruct (status_cases (property req_query (js "status")))
    as [Hf | [Hv | [(s & Hs & Hne & HS & HN) | [Ht Hns]]]].
  - left. apply get_deliveries_passes. by left.
  - left. apply get_deliveries_passes. by right.
  - right. left. by apply (get_deliveries_rejects _ s).
  - right. right. by apply get_deliveries_throws.
Qed.

Lemma name_cases (v : JSValue) : name_not_blank v \/ ~ name_not_blank v.
Proof.
  destruct v as [| |b|x|n|items|props];
    try (right; intros (n0 & Heq & _); discriminate Heq).
  destruct (decide (trim n = [])) as [Hblank | Hnot].
  - right. intros (n0 & Heq & Hn0). by injection Heq as <-.
  - left. by exists n.
Qed.

Lemma put_delivery_status_cases (id : jsstring)
    (req_body : gmap jsstring JSValue) (w : World) :
  (exists s n, (toUpperCase s = js "S" \/ toUpperCase s = js "N")
               /\ put_delivery_status id req_body w
                  = update_and_answer id (toUpperCase s) (trim n) w)
  \/ (exists r, put_delivery_status id req_body w
                = (Return, set_sent (Some r) w))
  \/ put_delivery_status id req_body w
     = (Throw (TypeError (js "toUpperCase")), w).
Proof.
  destruct (status_cases (property req_body (js "status")))
    as [Hf | [Hv | [(s & Hs & Hne & HS & HN) | [Ht Hns]]]].
  - right. left. eexists. apply put_status_rejected. by left.
  - destruct (name_cases (property req_body (js "delivererName")))
      as [(n & Hn & Hnb) | Hbad].
    + left. destruct Hv as (s & Hs & Hup). exists s, n. split; [done|].
      by apply put_valid.
    + right. left. eexists. by apply put_name_rejected.
  - right. left. eexists. apply put_status_rejected. right. by exists s.
  - right. right. by apply put_status_throws.
Qed.

(** ** The delivered flag *)

Lemma writes_S_or_N_nothing (w w' : World) :
  mysql w' = mysql w ->
  executed (trace w') = executed (trace w) ->
  entregas w' = entregas w ->
  writes_S_or_N w w'.
Proof.
  intros Hm Hx He. split; [done|]. split; [|by left].
  exists []. rewrite app_nil_r. split; [done|].
  intros values Hin. by apply elem_of_nil in Hin.
Qed.

Lemma writes_S_or_N_from (w w0 w' : World) :
  mysql w0 = mysql w ->
  executed (trace w0) = executed (trace w) ->
  entregas w0 = entregas w ->
  writes_S_or_N w0 w' -> writes_S_or_N w w'.
Proof.
  intros Hm Hx He (Hm' & Hstmts & Htable). unfold writes_S_or_N.
  by rewrite <- Hm, <- Hx, <- He.
Qed.

Lemma read_and_answer_writes (req_query : gmap jsstring JSValue) (w : World) :
  writes_S_or_N w
    (snd (read_and_answer (spec_select req_query) (spec_values req_query) w)).
Proof.
  rewrite (read_and_answer_run _ _ _ (spec_select_not_update req_query)).
  cbv zeta. split; [by destruct (fails _ _ _)|]. split.
  - exists [(spec_select req_query, spec_values req_query)]. split.
    + destruct (fails _ _ _); simpl; rewrite !executed_app; simpl;
        by rewrite ?app_nil_r.
    + intros values Hin. apply list_elem_of_singleton in Hin.
      injection Hin as Hsql _.
      by destruct (spec_select_not_update req_query).
  - left. by destruct (fails _ _ _).
Qed.

Lemma update_and_answer_writes (id flag name : jsstring) (w : World) :
  flag = js "S" \/ flag = js "N" ->
  writes_S_or_N w (snd (update_and_answer id flag name w)).
Proof.
  intros Hflag. rewrite update_and_answer_run. cbv zeta.
  split; [|split].
  - destruct (fails _ _ _); [done|]. by destruct (_ =? 0)%Z.
  - exists [(UPDATE_ENTREGAS, [JSString flag; JSString name; JSString id])].
    split.
    + destruct (fails _ _ _); [|destruct (_ =? 0)%Z]; simpl;
        rewrite !executed_app; simpl; by rewrite ?app_nil_r.
    + intros values Hin. apply list_elem_of_singleton in Hin.
      injection Hin as ->. by exists flag, name, id.
  - destruct (fails _ _ _); [by left|]. right.
    exists flag, name, (JSString id). split; [done|].
    by destruct (_ =? 0)%Z.
Qed.

Lemma route_writes (req : Request) (w : World) :
  writes_S_or_N w (snd (async_call (route req) w)).
Proof.
  unfold async_call. destruct req as [req_query | id req_body |]; simpl.
  - destruct (get_deliveries_cases req_query w) as [Hrun | [H400 | Hthrow]].
    + pose proof (read_and_answer_writes req_query w) as Hw.
      rewrite Hrun.
      rewrite (read_and_answer_run _ _ _ (spec_select_not_update req_query))
        in Hw |- *.
      cbv zeta in *. by destruct (fails _ _ _).
    + rewrite H400. by apply writes_S_or_N_nothing.
    + rewrite Hthrow. apply writes_S_or_N_nothing; simpl; try done.
      rewrite executed_app. simpl. by rewrite app_nil_r.
  - destruct (put_delivery_status_cases id req_body w)
      as [(s & n & Hup & Hrun) | [(r & H400) | Hthrow]].
    + pose proof (update_and_answer_writes id _ (trim n) w Hup) as Hw.
      rewrite Hrun. rewrite update_and_answer_run in Hw |- *. cbv zeta in *.
      destruct (fails _ _ _); [done|]. by destruct (_ =? 0)%Z.
    + rewrite H400. by apply writes_S_or_N_nothing.
    + rewrite Hthrow. apply writes_S_or_N_nothing; simpl; try done.
      rewrite executed_app. simpl. by rewrite app_nil_r.
  - by apply writes_S_or_N_nothing.
Qed.

Lemma serve_writes (req : Request) (w : World) :
  writes_S_or_N w (serve req w).
Proof.
  unfold serve. destruct (connects (mysql w)) eqn:Hconn.
  - rewrite app_up by done.
    apply (writes_S_or_N_from w (connection_checked (set_sent None w)));
      try done.
    + unfold connection_checked, log. simpl. rewrite !executed_app. simpl.
      by rewrite !app_nil_r.
    + apply route_writes.
  - unfold app. rewrite check_connection_down by done.
    apply writes_S_or_N_nothing; try done.
    unfold connection_refused, log. simpl. rewrite !executed_app. simpl.
    by rewrite !app_nil_r.
Qed.

Lemma sql_update_flag (eq : SqlValue -> JSValue -> bool)
    (flag name : jsstring) (id : JSValue) (t : list Row) :
  flag = js "S" \/ flag = js "N" ->
  Forall2 (fun r r' => r' = r \/ flag_S_or_N r') t
    (sql_update eq flag name id t).
Proof.
  intros Hflag. unfold sql_update.
  induction t as [|r t IH]; simpl; constructor; [|exact IH].
  destruct (eq (ID_ENTREGA r) id); [right|by left].
  unfold flag_S_or_N. simpl. destruct Hflag as [-> | ->]; auto.
Qed.

Lemma flags_kept (t t' : list Row) :
  Forall2 (fun r r' => r' = r \/ flag_S_or_N r') t t' ->
  Forall flag_S_or_N t -> Forall flag_S_or_N t'.
Proof.
  induction 1 as [|r r' t t' Hr _ IH]; [done|].
  intros Hinv. apply Forall_cons in Hinv as [Hr0 Ht0].
  apply Forall_cons. split; [|exact (IH Ht0)].
  by destruct Hr as [-> | Hr].
Qed.

(** C9.  Serving any request, of any route, every UPDATE it sends binds
    S or N, exactly, as the delivered flag; every row of the table is
    either as it was or has S or N as its flag; so a table whose flags
    are all S or N stays such a table. *)
Theorem delivered_flag_written_S_or_N (req : Request) (w : World) :
  let w' := serve req w in
  (forall values,
     (UPDATE_ENTREGAS, values) ∈ executed (trace w') ->
     (UPDATE_ENTREGAS, values) ∈ executed (trace w)
     \/ exists flag name id,
          values = [JSString flag; JSString name; JSString id]
          /\ (flag = js "S" \/ flag = js "N"))
  /\ Forall2 (fun r r' => r' = r \/ flag_S_or_N r') (entregas w) (entregas w')
  /\ (Forall flag_S_or_N (entregas w) -> Forall flag_S_or_N (entregas w')).
Proof.
  intros w'. destruct (serve_writes req w) as (_ & Hstmts & Htable).
  fold w' in Hstmts, Htable.
  assert (Hrows : Forall2 (fun r r' => r' = r \/ flag_S_or_N r')
                    (entregas w) (entregas w')).
  { destruct Htable as [-> | (flag & name & id & Hflag & ->)].
    - apply Forall2_same_length_lookup_2; [done|].
      intros i r r' Hr Hr'. left. congruence.
    - by apply sql_update_flag. }
  split; [|split; [exact Hrows|]].
  - destruct Hstmts as (stmts & -> & Hall). intros values Hin.
    apply elem_of_app in Hin as [Hold | Hnew]; [by left|].
    right. by apply Hall.
  - by apply flags_kept.
Qed.

Lemma delivered_flag_written_S_or_N_witness :
  let req := PUT_api_deliveries_id_status (js "7")
               {[ js "status" := JSString (js "s");
                  js "delivererName" := JSString (js "Maria") ]} in
  let values := [JSString (js "S"); JSString (js "Maria"); JSString (js "7")] in
  Forall flag_S_or_N (entregas world0)
  /\ Forall flag_S_or_N (entregas (serve req world0))
  /\ ((UPDATE_ENTREGAS, values) ∈ executed (trace world0)
      \/ exists flag name id,
           values = [JSString flag; JSString name; JSString id]
           /\ (flag = js "S" \/ flag = js "N")).
Proof.
  intros req values.
  assert (H0 : Forall flag_S_or_N (entregas world0)).
  { apply List.Forall_cons; [right; reflexivity|].
    apply List.Forall_cons; [left; reflexivity|].
    apply List.Forall_nil. }
  destruct (delivered_flag_written_S_or_N req world0) as (Hsent & _ & Hkept).
  split; [exact H0|]. split; [exact (Hkept H0)|].
  apply Hsent. apply list_elem_of_In. vm_compute. left. reflexivity.
Defined.

(** ** A status that is not a text *)

(** C3.  The update request with body [{"status": 1, "delivererName":
    "Ana"}] for delivery 7: the status is truthy and has no
    [toUpperCase], line 109 throws a TypeError outside any [try], the
    promise of the handler rejects, and the handler sends no answer at
    all, so not the 400 of line 110.  The check of the deliverer name,
    line 112, tests [typeof delivererName !== 'string'] before it calls
    [trim]; the check of the status calls [toUpperCase] untested. *)
Theorem update_status_number_rejects_without_answer :
  let w' := serve (PUT_api_deliveries_id_status (js "7")
                     {[ js "status" := number_1;
                        js "delivererName" := JSString (js "Ana") ]}) world0 in
  sent w' = None
  /\ trace w' = [PoolGetConnection; ConnectionRelease;
                 HandlerRejected (TypeError (js "toUpperCase"))]
  /\ entregas w' = entregas world0.
Proof. cbv zeta. repeat split; vm_compute; reflexivity. Qed.

(** The same request with a deliverer name that is not a text is
    answered 400: the second check covers every value. *)
Example update_name_number_answered_400 :
  sent (serve (PUT_api_deliveries_id_status (js "7")
                 {[ js "status" := JSString (js "S");
                    js "delivererName" := number_1 ]}) world0)
  = Some (mkResponse 400 (Message MSG_NOME_OBRIGATORIO)).
Proof. vm_compute. reflexivity. Qed.

(** C5.  The update request with body [{"status": 1, "delivererName":
    ""}], whose status and deliverer name are both invalid: the first
    check throws before it can fail, and no status error, and no answer,
    is sent. *)
Theorem update_both_invalid_status_number_no_answer :
  let w' := serve (PUT_api_deliveries_id_status (js "7")
                     {[ js "status" := number_1;
                        js "delivererName" := JSString [] ]}) world0 in
  sent w' = None
  /\ trace w' = [PoolGetConnection; ConnectionRelease;
                 HandlerRejected (TypeError (js "toUpperCase"))].
Proof. cbv zeta. split; vm_compute; reflexivity. Qed.

(** Where the first check can be evaluated, the order is the one of the
    source: a status that is falsy, or a text other than S and N in
    either case, is answered with the status message whatever the
    deliverer name is; a status that passes and a deliverer name that is
    missing, not a text, or blank is answered with the name message; no
    statement is sent in either case. *)
Lemma update_validation_order (id : jsstring)
    (req_body : gmap jsstring JSValue) (w : World) :
  (truthy (property req_body (js "status")) = false
   \/ (exists s, property req_body (js "status") = JSString s
                 /\ toUpperCase s <> js "S" /\ toUpperCase s <> js "N") ->
   put_delivery_status id req_body w
   = (Return,
      set_sent (Some (mkResponse 400 (Message MSG_STATUS_OBRIGATORIO))) w))
  /\ (status_S_or_N (property req_body (js "status")) ->
      ~ name_not_blank (property req_body (js "delivererName")) ->
      put_delivery_status id req_body w
      = (Return,
         set_sent (Some (mkResponse 400 (Message MSG_NOME_OBRIGATORIO))) w)).
Proof.
  split.
  - apply put_status_rejected.
  - apply put_name_rejected.
Qed.

Example update_both_invalid_text_status :
  sent (serve (PUT_api_deliveries_id_status (js "7")
                 {[ js "status" := JSString (js "X");
                    js "delivererName" := JSString (js "   ") ]}) world0)
  = Some (mkResponse 400 (Message MSG_STATUS_OBRIGATORIO)).
Proof. vm_compute. reflexivity. Qed.

(** * Beyond the two validation paths: every outcome of a request *)

Lemma route_outcome (req : Request) (w1 : World) :
  Outcome w1 req (snd (async_call (route req) w1)).
Proof.
  unfold async_call. destruct req as [q | id b |]; simpl.
  - destruct (status_cases (property q (js "status")))
      as [Hf | [Hv | [Hbad | Hnt]]].
    + rewrite get_deliveries_passes by (by left).
      rewrite (read_and_answer_run _ _ _ (spec_select_not_update q)).
      cbv zeta. destruct (fails _ _ _) eqn:Hfail; simpl.
      * apply read_500; auto.
      * apply read_200; auto.
    + rewrite get_deliveries_passes by (by right).
      rewrite (read_and_answer_run _ _ _ (spec_select_not_update q)).
      cbv zeta. destruct (fails _ _ _) eqn:Hfail; simpl.
      * apply read_500; auto.
      * apply read_200; auto.
    + pose proof Hbad as (s & Hs & Hne & HS & HN).
      rewrite (get_deliveries_rejects _ s w1 Hs Hne HS HN). simpl.
      by apply read_400.
    + destruct Hnt as [Ht Hns]. rewrite get_deliveries_throws by done.
      simpl. by apply read_throws.
  - destruct (status_cases (property b (js "status")))
      as [Hf | [Hv | [Hbad | Hnt]]].
    + rewrite put_status_rejected by (by left). simpl.
      apply update_400_status. by left.
    + destruct (name_cases (property b (js "delivererName")))
        as [(n & Hn & Hnb) | Hblank].
      * destruct Hv as (s & Hs & Hup).
        rewrite (put_valid _ _ _ _ _ Hs Hup Hn Hnb).
        rewrite update_and_answer_run. cbv zeta.
        destruct (fails _ _ _) eqn:Hfail; simpl.
        { by apply (update_500 w1 id b s n). }
        destruct (_ =? 0)%Z eqn:Haff; simpl.
        { apply Z.eqb_eq in Haff. unfold affected_rows, FOUND_ROWS in Haff.
          assert (H0 : rows_matched (where_eq (mysql w1)) (JSString id)
                         (entregas w1) = 0%nat) by lia.
          rewrite (sql_update_no_match _ _ _ _ _ H0).
          replace (set_entregas (entregas w1) (log _ w1))
            with (log (PoolExecute UPDATE_ENTREGAS
                         [JSString (toUpperCase s); JSString (trim n);
                          JSString id]) w1)
            by (by destruct w1).
          by apply (update_404 w1 id b s n). }
        apply Z.eqb_neq in Haff. unfold affected_rows, FOUND_ROWS in Haff.
        apply (update_200 w1 id b s n); auto. lia.
      * rewrite put_name_rejected by done. simpl.
        by apply update_400_name.
    + pose proof Hbad as (s & Hs & Hne & HS & HN).
      rewrite put_status_rejected by (right; by exists s). simpl.
      apply update_400_status. by right.
    + destruct Hnt as [Ht Hns]. rewrite put_status_throws by done.
      simpl. by apply update_throws.
  - apply no_route.
Qed.

(** A request on a server that gives a connection ends as its handler
    ends, started after the connection check; on a server that gives
    none it ends in the refusal of the check. *)
Lemma serve_outcome (req : Request) (w : World) :
  (connects (mysql w) = true
   /\ Outcome (connection_checked (set_sent None w)) req (serve req w))
  \/ (connects (mysql w) = false
      /\ serve req w = connection_refused (set_sent None w)).
Proof.
  unfold serve. destruct (connects (mysql w)) eqn:Hc.
  - left. split; [done|]. rewrite app_up by done. apply route_outcome.
  - right. split; [done|]. unfold app. by rewrite check_connection_down.
Qed.

Ltac outcomes req w Hc Hout :=
  let w' := fresh "w'" in
  let Hw' := fresh "Hw'" in
  destruct (serve_outcome req w) as [[Hc Hout] | [Hc Hout]];
  [ remember (serve req w) as w' eqn:Hw'; clear Hw' | rewrite Hout ].

(** ** The answers of the two [try] blocks *)

(** X1.  Lines 86-92.  A read request that gets past the status filter
    leaves the table as it is, whatever the server does.  When the
    statement succeeds the answer is 200 and carries the rows the server
    returned, as they are, and nothing is logged; when it fails the
    error is logged once and the answer is 500 with a fixed message. *)
Theorem read_answer (req_query : gmap jsstring JSValue) (w : World) :
  truthy (property req_query (js "status")) = false
  \/ status_S_or_N (property req_query (js "status")) ->
  let sql := spec_select req_query in
  let values := spec_values req_query in
  let w' := snd (get_deliveries req_query w) in
  entregas w' = entregas w
  /\ (fails (mysql w) sql values = false ->
      sent w' = Some (mkResponse 200
                        (Data (RowSet (select (mysql w) sql values
                                         (entregas w)))))
      /\ trace w' = trace w ++ [PoolExecute sql values])
  /\ (fails (mysql w) sql values = true ->
      sent w' = Some (mkResponse 500 (Message MSG_ERRO_BUSCAR))
      /\ trace w'
         = trace w ++ [PoolExecute sql values;
                       ConsoleError (js "Erro ao buscar entregas:") MySQLError]).
Proof.
  intros Hpass sql values w'. subst w'.
  rewrite (get_deliveries_passes _ _ Hpass).
  rewrite (read_and_answer_run _ _ _ (spec_select_not_update req_query)).
  cbv zeta. fold sql values. destruct (fails (mysql w) sql values); simpl.
  - split; [done|]. split; [done|]. intros _. split; [done|].
    by rewrite <- app_assoc.
  - split; [done|]. split; [|done]. intros _. by split.
Qed.

Lemma read_answer_witness :
  (sent (snd (get_deliveries ∅ world0))
   = Some (mkResponse 200 (Data (RowSet [row7; row8])))
   /\ trace (snd (get_deliveries ∅ world0))
      = [PoolExecute (js "SELECT * FROM entregas WHERE 1=1") []])
  /\ (sent (snd (get_deliveries ∅ world_failing))
      = Some (mkResponse 500 (Message MSG_ERRO_BUSCAR))
      /\ trace (snd (get_deliveries ∅ world_failing))
         = [PoolExecute (js "SELECT * FROM entregas WHERE 1=1") [];
            ConsoleError (js "Erro ao buscar entregas:") MySQLError]).
Proof.
  split.
  - destruct (read_answer ∅ world0) as (_ & Hok & _); [by left|].
    destruct Hok as [Hsent Htrace]; [reflexivity|]. split.
    + refine (eq_trans Hsent _). vm_compute. reflexivity.
    + refine (eq_trans Htrace _). vm_compute. reflexivity.
  - destruct (read_answer ∅ world_failing) as (_ & _ & Hko); [by left|].
    destruct Hko as [Hsent Htrace]; [reflexivity|]. split.
    + exact Hsent.
    + refine (eq_trans Htrace _). vm_compute. reflexivity.
Defined.

(** X2.  Lines 127-130.  When the server fails the UPDATE of a valid
    update request, the error is logged once, the answer is 500 with a
    fixed message, and the table is as it was. *)
Theorem update_failure (id : jsstring) (req_body : gmap jsstring JSValue)
    (s n : jsstring) (w : World) :
  property req_body (js "status") = JSString s ->
  toUpperCase s = js "S" \/ toUpperCase s = js "N" ->
  property req_body (js "delivererName") = JSString n ->
  trim n <> [] ->
  let values := [JSString (toUpperCase s); JSString (trim n); JSString id] in
  let w' := snd (put_delivery_status id req_body w) in
  fails (mysql w) UPDATE_ENTREGAS values = true ->
  sent w' = Some (mkResponse 500 (Message MSG_ERRO_ATUALIZAR))
  /\ trace w'
     = trace w ++ [PoolExecute UPDATE_ENTREGAS values;
                   ConsoleError (js "Erro ao atualizar status da entrega:")
                     MySQLError]
  /\ entregas w' = entregas w.
Proof.
  intros Hstatus Hup Hname Hn values w' Hfail. subst w'.
  rewrite (put_valid _ _ _ _ _ Hstatus Hup Hname Hn).
  rewrite update_and_answer_run. cbv zeta. fold values. rewrite Hfail.
  simpl. split; [done|]. split; [|done]. by rewrite <- app_assoc.
Qed.

Lemma update_failure_witness :
  let req_body : gmap jsstring JSValue :=
    {[ js "status" := JSString (js "S");
       js "delivererName" := JSString (js "Ana") ]} in
  let w' := snd (put_delivery_status (js "7") req_body world_failing) in
  sent w' = Some (mkResponse 500 (Message MSG_ERRO_ATUALIZAR))
  /\ entregas w' = [row7; row8].
Proof.
  intros req_body w'.
  destruct (update_failure (js "7") req_body (js "S") (js "Ana") world_failing)
    as (Hsent & _ & Htable).
  - vm_compute. reflexivity.
  - left. vm_compute. reflexivity.
  - vm_compute. reflexivity.
  - vm_compute. discriminate.
  - reflexivity.
  - split; [exact Hsent | exact Htable].
Defined.

(** ** What a request never does *)

Lemma updates_sent_app (t1 t2 : list Event) :
  updates_sent (t1 ++ t2) = updates_sent t1 ++ updates_sent t2.
Proof. unfold updates_sent. by rewrite executed_app, List.filter_app. Qed.

Lemma updates_sent_log (e : Event) (w : World) :
  updates_sent (trace (log e w)) = updates_sent (trace w) ++ updates_sent [e].
Proof. unfold log. simpl. apply updates_sent_app. Qed.

Lemma updates_sent_select (q : gmap jsstring JSValue) :
  updates_sent [PoolExecute (spec_select q) (spec_values q)] = [].
Proof.
  unfold updates_sent.
  change (executed [PoolExecute (spec_select q) (spec_values q)])
    with [(spec_select q, spec_values q)].
  unfold List.filter. cbn [fst].
  by rewrite bool_decide_eq_false_2 by apply spec_select_not_update.
Qed.

(** X3.  Lines 51-93.  A read request never writes: whatever its query
    string and whatever the server does, the table after it is the
    table before it, and it sends no UPDATE. *)
Theorem read_never_writes (req_query : gmap jsstring JSValue) (w : World) :
  let w' := serve (GET_api_deliveries req_query) w in
  entregas w' = entregas w
  /\ updates_sent (trace w') = updates_sent (trace w).
Proof.
  cbv zeta. outcomes (GET_api_deliveries req_query) w Hc Hout.
  - inversion Hout; subst; unfold answered, rejected_by; simpl;
      (split; [done|]);
      rewrite ?updates_sent_app, ?updates_sent_select; simpl;
      by rewrite ?app_nil_r.
  - split; [done|]. unfold connection_refused. simpl.
    rewrite !updates_sent_app. simpl. by rewrite !app_nil_r.
Qed.




(** ** Statements and their bound values *)

Lemma placeholders_select (q : gmap jsstring JSValue) :
  placeholders (spec_select q) = length (spec_values q).
Proof.
  unfold spec_select, spec_values, filter_clauses, present.
  generalize (property q (js "startDate")) as startDate.
  generalize (property q (js "endDate")) as endDate.
  generalize (property q (js "pdv")) as pdv.
  generalize (property q (js "status")) as status.
  intros status pdv endDate startDate.
  destruct (truthy startDate), (truthy endDate), (truthy pdv);
    destruct status as [| |b|x|s|items|props];
    try (vm_compute; reflexivity);
    destruct (truthy (JSString s)); vm_compute; reflexivity.
Qed.

Lemma placeholders_update : placeholders UPDATE_ENTREGAS = 3%nat.
Proof. vm_compute. reflexivity. Qed.

Ltac solve_statements :=
  split;
  [ unfold log; simpl; rewrite ?executed_app; simpl;
    rewrite ?app_nil_r; reflexivity
  | split;
    [ simpl; lia
    | repeat (apply List.Forall_cons;
              [ cbn [fst snd length];
                first [ apply placeholders_select | apply placeholders_update ]
              | ]);
      apply List.Forall_nil ] ].

Lemma outcome_statements (w1 : World) (req : Request) (w' : World) :
  Outcome w1 req w' ->
  exists stmts,
    executed (trace w') = executed (trace w1) ++ stmts
    /\ (length stmts <= 1)%nat
    /\ Forall (fun stmt => placeholders (fst stmt) = length (snd stmt)) stmts.
Proof.
  destruct 1; unfold answered, rejected_by;
    first [ exists []; solve_statements
          | exists [(spec_select q, spec_values q)]; solve_statements
          | exists [(UPDATE_ENTREGAS, values)]; solve_statements ].
Qed.

(** X5.  Lines 87 and 117-120, with the connection check.  A request
    sends the server at most one statement, and a statement it sends has
    exactly as many [?] as values bound to it. *)
Theorem one_statement_with_its_values (req : Request) (w : World) :
  exists stmts,
    executed (trace (serve req w)) = executed (trace w) ++ stmts
    /\ (length stmts <= 1)%nat
    /\ Forall (fun stmt => placeholders (fst stmt) = length (snd stmt)) stmts.
Proof.
  assert (Hcheck : executed (trace (connection_checked (set_sent None w)))
                   = executed (trace w)).
  { unfold connection_checked, log. simpl. rewrite !executed_app. simpl.
    by rewrite !app_nil_r. }
  outcomes req w Hc Hout.
  - rewrite <- Hcheck. by apply (outcome_statements _ req).
  - exists []. solve_statements.
Qed.

Lemma spec_select_presence (q1 q2 : gmap jsstring JSValue) :
  (forall key, key ∈ read_parameters ->
     truthy (property q1 key) = truthy (property q2 key)) ->
  truthy (property q1 (js "status")) = false
  \/ status_S_or_N (property q1 (js "status")) ->
  truthy (property q2 (js "status")) = false
  \/ status_S_or_N (property q2 (js "status")) ->
  spec_select q1 = spec_select q2.
Proof.
  intros Hsame.
  assert (Hin : forall key, In key read_parameters -> key ∈ read_parameters).
  { intros key. apply list_elem_of_In. }
  pose proof (Hsame (js "startDate") (Hin _ (or_introl eq_refl))) as H1.
  pose proof (Hsame (js "endDate") (Hin _ (or_intror (or_introl eq_refl)))) as H2.
  pose proof (Hsame (js "pdv")
                (Hin _ (or_intror (or_intror (or_introl eq_refl))))) as H3.
  pose proof (Hsame (js "status")
                (Hin _ (or_intror (or_intror (or_intror (or_introl eq_refl))))))
    as H4.
  clear Hin Hsame. unfold spec_select, filter_clauses, present.
  revert H1 H2 H3 H4.
  generalize (property q1 (js "startDate")) (property q2 (js "startDate")).
  generalize (property q1 (js "endDate")) (property q2 (js "endDate")).
  generalize (property q1 (js "pdv")) (property q2 (js "pdv")).
  generalize (property q1 (js "status")) (property q2 (js "status")).
  intros s1 s2 p1 p2 e1 e2 d1 d2 H1 H2 H3 H4 Hp1 Hp2.
  rewrite H1, H2, H3.
  assert (Hst : match s1 with
                | JSString s => if truthy s1
                                then [(js "ENTREGUE = ?", [JSString (toUpperCase s)])]
                                else []
                | _ => []
                end
                = [] /\ truthy s2 = false
                \/ exists t1 t2, s1 = JSString t1 /\ s2 = JSString t2
                                 /\ truthy s1 = true /\ truthy s2 = true).
  { destruct Hp1 as [Hf1 | Hv1].
    - left. rewrite <- H4. split; [|done]. rewrite Hf1. by destruct s1.
    - right. pose proof (status_S_or_N_truthy _ Hv1) as Ht1.
      destruct Hp2 as [Hf2 | Hv2]; [congruence|].
      pose proof (status_S_or_N_truthy _ Hv2) as Ht2.
      destruct Hv1 as (t1 & -> & _), Hv2 as (t2 & -> & _). by exists t1, t2. }
  destruct Hst as [[Hnil Hf2] | (t1 & t2 & -> & -> & Ht1 & Ht2)].
  - rewrite Hnil. rewrite Hf2.
    destruct s2, (truthy d2), (truthy e2), (truthy p2);
      vm_compute; reflexivity.
  - rewrite Ht1, Ht2.
    destruct (truthy d2), (truthy e2), (truthy p2); vm_compute; reflexivity.
Qed.

Lemma read_statement_executed (q : gmap jsstring JSValue) (w : World) :
  truthy (property q (js "status")) = false
  \/ status_S_or_N (property q (js "status")) ->
  executed (trace (snd (get_deliveries q w)))
  = executed (trace w) ++ [(spec_select q, spec_values q)].
Proof.
  intros Hp. rewrite (get_deliveries_passes _ _ Hp).
  rewrite (read_and_answer_run _ _ _ (spec_select_not_update q)).
  cbv zeta. destruct (fails _ _ _); simpl; rewrite !executed_app; simpl;
    by rewrite ?app_nil_r.
Qed.

Lemma read_statement_inv (q : gmap jsstring JSValue) (w : World)
    (sql : jsstring) (values : list JSValue) :
  executed (trace (snd (get_deliveries q w)))
  = executed (trace w) ++ [(sql, values)] ->
  (truthy (property q (js "status")) = false
   \/ status_S_or_N (property q (js "status")))
  /\ sql = spec_select q /\ values = spec_values q.
Proof.
  intros Hx.
  assert (Hno : executed (trace w) <> executed (trace w) ++ [(sql, values)]).
  { intros Heq. apply (f_equal length) in Heq.
    rewrite length_app in Heq. simpl in Heq. lia. }
  destruct (status_cases (property q (js "status")))
    as [Hf | [Hv | [(s & Hs & Hne & HS & HN) | [Ht Hns]]]].
  - assert (Hp : truthy (property q (js "status")) = false
                 \/ status_S_or_N (property q (js "status"))) by (by left).
    split; [done|]. rewrite (read_statement_executed _ _ Hp) in Hx.
    apply app_inv_head in Hx. by injection Hx as <- <-.
  - assert (Hp : truthy (property q (js "status")) = false
                 \/ status_S_or_N (property q (js "status"))) by (by right).
    split; [done|]. rewrite (read_statement_executed _ _ Hp) in Hx.
    apply app_inv_head in Hx. by injection Hx as <- <-.
  - rewrite (get_deliveries_rejects _ s w Hs Hne HS HN) in Hx. by destruct Hno.
  - rewrite (get_deliveries_throws _ _ Ht Hns) in Hx. by destruct Hno.
Qed.

(** X6.  Lines 53-84.  The text of the statement a read request sends
    depends only on which of the four parameters are present, never on
    their values: two requests with the same parameters present send
    the same text, whatever the values and whatever the servers. *)
Theorem read_text_from_presence_only (q1 q2 : gmap jsstring JSValue)
    (w1 w2 : World) (sql1 sql2 : jsstring) (values1 values2 : list JSValue) :
  (forall key, key ∈ read_parameters ->
     truthy (property q1 key) = truthy (property q2 key)) ->
  executed (trace (snd (get_deliveries q1 w1)))
  = executed (trace w1) ++ [(sql1, values1)] ->
  executed (trace (snd (get_deliveries q2 w2)))
  = executed (trace w2) ++ [(sql2, values2)] ->
  sql1 = sql2.
Proof.
  intros Hsame Hx1 Hx2.
  apply read_statement_inv in Hx1 as (Hp1 & -> & _).
  apply read_statement_inv in Hx2 as (Hp2 & -> & _).
  by apply spec_select_presence.
Qed.

Lemma read_text_from_presence_only_witness :
  let q1 : gmap jsstring JSValue :=
    {[ js "pdv" := JSString (js "3"); js "status" := JSString (js "s") ]} in
  let q2 : gmap jsstring JSValue :=
    {[ js "pdv" := JSString (js "1 OR 1=1"); js "status" := JSString (js "N") ]} in
  map fst (executed (trace (snd (get_deliveries q1 world0))))
  = map fst (executed (trace (snd (get_deliveries q2 world_failing)))).
Proof.
  intros q1 q2.
  assert (Hx1 : executed (trace (snd (get_deliveries q1 world0)))
                = executed (trace world0)
                  ++ [(spec_select q1,
                       [JSString (js "3"); JSString (js "3");
                        JSString (js "S")])])
    by (vm_compute; reflexivity).
  assert (Hx2 : executed (trace (snd (get_deliveries q2 world_failing)))
                = executed (trace world_failing)
                  ++ [(spec_select q2,
                       [JSString (js "1 OR 1=1"); JSString (js "1 OR 1=1");
                        JSString (js "N")])])
    by (vm_compute; reflexivity).
  assert (Hsame : forall key, key ∈ read_parameters ->
            truthy (property q1 key) = truthy (property q2 key)).
  { intros key Hkey. apply list_elem_of_In in Hkey.
    destruct Hkey as [<- | [<- | [<- | [<- | []]]]]; vm_compute; reflexivity. }
  pose proof (read_text_from_presence_only q1 q2 world0 world_failing _ _ _ _
                Hsame Hx1 Hx2) as Htext.
  rewrite Hx1, Hx2. simpl. rewrite Htext. reflexivity.
Defined.

(** ** Answers *)

Lemma status_not_text_falsy (v : JSValue) :
  status_not_text v -> truthy v = false -> False.
Proof. intros [Ht _] Hf. congruence. Qed.

Lemma status_not_text_S_or_N (v : JSValue) :
  status_not_text v -> status_S_or_N v -> False.
Proof. intros [_ Hns] (s & Hs & _). by destruct (Hns s). Qed.

Lemma status_not_text_text (v : JSValue) :
  status_not_text v -> status_text_not_S_N v -> False.
Proof. intros [_ Hns] (s & Hs & _). by destruct (Hns s). Qed.

Lemma outcome_400 (w1 : World) (req : Request) (w' : World) (r : Response) :
  sent w1 = None ->
  Outcome w1 req w' ->
  sent w' = Some r ->
  statusCode r = 400%Z ->
  executed (trace w') = executed (trace w1)
  /\ entregas w' = entregas w1
  /\ (body r = Message MSG_STATUS_INVALIDO
      \/ body r = Message MSG_STATUS_OBRIGATORIO
      \/ body r = Message MSG_NOME_OBRIGATORIO).
Proof.
  intros Hnone Hout Hsent Hcode.
  destruct Hout; unfold answered, rejected_by in *; simpl in Hsent;
    first [ congruence
          | injection Hsent as <-; simpl in Hcode;
            first [ discriminate Hcode | simpl; auto ] ].
Qed.

(** A routed request that the code of server.js answers 400. *)
Lemma serve_400_before_database (req : Request) (w : World) (r : Response) :
  sent (serve req w) = Some r ->
  statusCode r = 400%Z ->
  executed (trace (serve req w)) = executed (trace w)
  /\ entregas (serve req w) = entregas w
  /\ (body r = Message MSG_STATUS_INVALIDO
      \/ body r = Message MSG_STATUS_OBRIGATORIO
      \/ body r = Message MSG_NOME_OBRIGATORIO).
Proof.
  assert (Hcheck : executed (trace (connection_checked (set_sent None w)))
                   = executed (trace w)).
  { unfold connection_checked, log. simpl. rewrite !executed_app. simpl.
    by rewrite !app_nil_r. }
  outcomes req w Hc Hout.
  - intros Hsent Hcode.
    destruct (outcome_400 (connection_checked (set_sent None w)) req _ r
                eq_refl Hout Hsent Hcode) as (Hx & Ht & Hb).
    split; [by rewrite Hx|]. split; [exact Ht | exact Hb].
  - intros Hsent Hcode. unfold connection_refused in Hsent. simpl in Hsent.
    injection Hsent as <-. discriminate Hcode.
Qed.

Lemma errors_logged_app (t1 t2 : list Event) :
  errors_logged (t1 ++ t2) = (errors_logged t1 + errors_logged t2)%nat.
Proof.
  induction t1 as [|e t1 IH]; [done|].
  destruct e; simpl; by rewrite IH.
Qed.

Lemma outcome_errors_logged (w1 : World) (req : Request) (w' : World) :
  sent w1 = None ->
  Outcome w1 req w' ->
  errors_logged (trace w')
  = (errors_logged (trace w1)
     + if bool_decide (answer_code w' = Some 500%Z) then 1 else 0)%nat.
Proof.
  intros Hnone Hout.
  destruct Hout; unfold answered, rejected_by, answer_code, log; simpl;
    rewrite ?errors_logged_app, ?Hnone; simpl; lia.
Qed.

(** A routed request logs one error when it is answered 500 and none
    otherwise. *)
Lemma serve_errors_logged (req : Request) (w : World) :
  errors_logged (trace (serve req w))
  = (errors_logged (trace w)
     + if bool_decide (answer_code (serve req w) = Some 500%Z) then 1 else 0)%nat.
Proof.
  assert (Hcheck : errors_logged (trace (connection_checked (set_sent None w)))
                   = errors_logged (trace w)).
  { unfold connection_checked, log. simpl. rewrite !errors_logged_app. simpl.
    lia. }
  outcomes req w Hc Hout.
  - rewrite <- Hcheck.
    exact (outcome_errors_logged (connection_checked (set_sent None w)) req _
             eq_refl Hout).
  - unfold connection_refused, answer_code, log. simpl.
    rewrite !errors_logged_app. simpl. lia.
Qed.

(** ** Trimming *)

Lemma last_rev_head (s : jsstring) : last (rev s) = head s.
Proof. destruct s as [|c rest]; [done|]. simpl. apply last_snoc. Qed.

Lemma trimStart_split (s : jsstring) :
  exists pre, s = pre ++ trimStart s /\ Forall white pre.
Proof.
  induction s as [|c rest (pre & Hrest & Hpre)]; [by exists []|].
  simpl. destruct (is_white_space c) eqn:Hc.
  - exists (c :: pre). split; [simpl; by f_equal|]. by constructor.
  - by exists [].
Qed.

Lemma trimStart_head (s : jsstring) (c : N) (rest : jsstring) :
  trimStart s = c :: rest -> is_white_space c = false.
Proof.
  induction s as [|c0 s IH]; [done|]. simpl.
  destruct (is_white_space c0) eqn:Hc0; [exact IH|].
  intros Heq. by injection Heq as <- _.
Qed.

Lemma trimStart_nil_iff (s : jsstring) : trimStart s = [] <-> Forall white s.
Proof.
  induction s as [|c s IH]; simpl.
  - split; [constructor | done].
  - destruct (is_white_space c) eqn:Hc.
    + rewrite IH. split; [by constructor|].
      intros Hall. by apply Forall_cons in Hall as [_ ?].
    + split; [done|]. intros Hall. apply Forall_cons in Hall as [Hw _].
      unfold white in Hw. congruence.
Qed.

Lemma trimEnd_split (s : jsstring) :
  exists post, s = trimEnd s ++ post /\ Forall white post.
Proof.
  unfold trimEnd. destruct (trimStart_split (rev s)) as (pre & Hs & Hpre).
  exists (rev pre). split.
  - rewrite <- rev_app_distr, <- Hs. by rewrite rev_involutive.
  - by apply Forall_rev.
Qed.

Lemma trimEnd_last (s : jsstring) (c : N) :
  last (trimEnd s) = Some c -> is_white_space c = false.
Proof.
  unfold trimEnd. rewrite last_rev_head.
  destruct (trimStart (rev s)) as [|c0 rest] eqn:Ht; [done|].
  simpl. intros Heq. injection Heq as <-. by eapply trimStart_head.
Qed.

Lemma trimEnd_nil_iff (s : jsstring) : trimEnd s = [] <-> Forall white s.
Proof.
  unfold trimEnd. split.
  - intros Hnil. apply (f_equal (@rev N)) in Hnil.
    rewrite rev_involutive in Hnil. simpl in Hnil.
    apply trimStart_nil_iff in Hnil. apply Forall_rev in Hnil.
    by rewrite rev_involutive in Hnil.
  - intros Hall. apply Forall_rev in Hall. apply trimStart_nil_iff in Hall.
    by rewrite Hall.
Qed.

(** [trim] takes away a run of white space at each end and nothing
    else; what is left neither starts nor ends with white space. *)
Lemma trim_split (s : jsstring) :
  exists pre post,
    s = pre ++ trim s ++ post /\ Forall white pre /\ Forall white post.
Proof.
  unfold trim. destruct (trimStart_split s) as (pre & Hs & Hpre).
  destruct (trimEnd_split (trimStart s)) as (post & Ht & Hpost).
  exists pre, post. split; [|done]. by rewrite <- Ht.
Qed.

Lemma trim_head (s : jsstring) (c : N) :
  head (trim s) = Some c -> is_white_space c = false.
Proof.
  unfold trim. destruct (trimEnd_split (trimStart s)) as (post & Ht & _).
  destruct (trimEnd (trimStart s)) as [|c0 rest]; [done|].
  simpl. intros Heq. injection Heq as <-.
  simpl in Ht. by eapply trimStart_head.
Qed.

Lemma trim_last (s : jsstring) (c : N) :
  last (trim s) = Some c -> is_white_space c = false.
Proof. unfold trim. apply trimEnd_last. Qed.

Lemma trim_nil_iff (s : jsstring) : trim s = [] <-> Forall white s.
Proof.
  unfold trim. rewrite trimEnd_nil_iff. split.
  - intros Hall. apply trimStart_nil_iff.
    destruct (trimStart s) as [|c rest] eqn:Ht; [done|].
    apply trimStart_head in Ht. apply Forall_cons in Hall as [Hw _].
    unfold white in Hw. congruence.
  - intros Hall. apply trimStart_nil_iff in Hall. rewrite Hall. constructor.
Qed.

Lemma not_all_white (s : jsstring) :
  ~ Forall white s <-> exists c, c ∈ s /\ is_white_space c = false.
Proof.
  split.
  - induction s as [|c rest IH]; intros Hnot.
    + destruct Hnot. constructor.
    + destruct (is_white_space c) eqn:Hc.
      * destruct IH as (c' & Hc' & Hw).
        { intros Hall. apply Hnot. by constructor. }
        exists c'. split; [by right | done].
      * exists c. split; [by left | done].
  - intros (c & Hc & Hw) Hall. rewrite Forall_forall in Hall.
    specialize (Hall c Hc). unfold white in Hall. congruence.
Qed.

(** ** The two checks of the update, exactly *)

Lemma messages_differ : MSG_NOME_OBRIGATORIO <> MSG_STATUS_OBRIGATORIO.
Proof. intros Heq. vm_compute in Heq. discriminate Heq. Qed.

(** The answer of the [try] block of the update is 500, 404 or 200. *)
Lemma update_and_answer_code (id flag name : jsstring) (w : World) :
  exists r, sent (snd (update_and_answer id flag name w)) = Some r
            /\ statusCode r <> 400%Z.
Proof.
  rewrite update_and_answer_run. cbv zeta.
  destruct (fails _ _ _); [|destruct (_ =? 0)%Z];
    eexists; (split; [reflexivity|]); simpl; discriminate.
Qed.

(** X10.  Line 112.  With a status that passes, the update is answered
    with the message of line 113 exactly when the deliverer name is not
    a text with at least one code unit other than white space: a
    missing name, a value of any other type, an empty text and a text of
    white space only are refused, and every other text is let through. *)
Theorem name_refused_iff_blank (id : jsstring)
    (req_body : gmap jsstring JSValue) (w : World) :
  status_S_or_N (property req_body (js "status")) ->
  sent (snd (put_delivery_status id req_body w))
  = Some (mkResponse 400 (Message MSG_NOME_OBRIGATORIO))
  <-> ~ exists n c, property req_body (js "delivererName") = JSString n
                    /\ c ∈ n /\ is_white_space c = false.
Proof.
  intros Hstatus.
  destruct (name_cases (property req_body (js "delivererName")))
    as [(n & Hn & Hnb) | Hblank].
  - destruct Hstatus as (s & Hs & Hup).
    rewrite (put_valid _ _ _ _ _ Hs Hup Hn Hnb).
    destruct (update_and_answer_code id (toUpperCase s) (trim n) w)
      as (r & -> & Hcode).
    split.
    + intros Heq. injection Heq as ->. by destruct Hcode.
    + intros Hnone. exfalso. apply Hnone.
      assert (Hnw : ~ Forall white n) by (by rewrite <- trim_nil_iff).
      apply not_all_white in Hnw as (c & Hc & Hw). by exists n, c.
  - rewrite (put_name_rejected _ _ _ Hstatus Hblank). simpl.
    split; [|done]. intros _ (n & c & Hn & Hc & Hw). apply Hblank.
    exists n. split; [done|]. rewrite trim_nil_iff, not_all_white. by exists c.
Qed.

Lemma name_refused_iff_blank_witness :
  sent (snd (put_delivery_status (js "7")
               {[ js "status" := JSString (js "S");
                  js "delivererName" := JSString [9; 32; 160] ]} world0))
  = Some (mkResponse 400 (Message MSG_NOME_OBRIGATORIO)).
Proof.
  apply name_refused_iff_blank.
  - exists (js "S"). split; [vm_compute; reflexivity|]. left. reflexivity.
  - intros (n & c & Hn & Hc & Hw). vm_compute in Hn. injection Hn as <-.
    apply list_elem_of_In in Hc.
    destruct Hc as [<- | [<- | [<- | []]]]; vm_compute in Hw; discriminate Hw.
Defined.

(** X11.  Line 109.  For a status that is a text, the update is
    answered with the message of line 110 exactly when the text is none
    of s, S, n, N and the long s (U+017F), whose upper case is S as
    well. *)
Theorem status_refused_iff_not_S_N (id : jsstring)
    (req_body : gmap jsstring JSValue) (s : jsstring) (w : World) :
  property req_body (js "status") = JSString s ->
  sent (snd (put_delivery_status id req_body w))
  = Some (mkResponse 400 (Message MSG_STATUS_OBRIGATORIO))
  <-> s ∉ [js "s"; js "S"; js "n"; js "N"; [383]].
Proof.
  intros Hs.
  assert (Hin : s ∈ [js "s"; js "S"; js "n"; js "N"; [383]]
                <-> toUpperCase s = js "S" \/ toUpperCase s = js "N").
  { rewrite toUpperCase_S_iff, toUpperCase_N_iff, !elem_of_cons, elem_of_nil.
    tauto. }
  rewrite Hin.
  destruct (decide (toUpperCase s = js "S")) as [HS | HS];
    [|destruct (decide (toUpperCase s = js "N")) as [HN | HN]].
  3: { rewrite put_status_rejected by (right; by exists s). simpl.
       split; [|done]. intros _ [? | ?]; done. }
  all: assert (Hup : toUpperCase s = js "S" \/ toUpperCase s = js "N") by auto;
    (split; [|by intros Hnot; destruct Hnot]); intros Hsent; exfalso;
    destruct (name_cases (property req_body (js "delivererName")))
      as [(n & Hn & Hnb) | Hblank];
    [ rewrite (put_valid _ _ _ _ _ Hs Hup Hn Hnb) in Hsent;
      destruct (update_and_answer_code id (toUpperCase s) (trim n) w)
        as (r & Hr & Hcode);
      rewrite Hr in Hsent; injection Hsent as ->; by destruct Hcode
    | rewrite put_name_rejected in Hsent
        by (try done; exists s; by split);
      simpl in Hsent; injection Hsent as Hmsg; by destruct messages_differ ].
Qed.

Lemma status_refused_iff_not_S_N_witness :
  sent (snd (put_delivery_status (js "7")
               {[ js "status" := JSString (js "SS");
                  js "delivererName" := JSString (js "Ana") ]} world0))
  = Some (mkResponse 400 (Message MSG_STATUS_OBRIGATORIO)).
Proof.
  apply (status_refused_iff_not_S_N _ _ (js "SS")).
  - vm_compute. reflexivity.
  - intros Hin. apply list_elem_of_In in Hin.
    destruct Hin as [H | [H | [H | [H | [H | []]]]]];
      vm_compute in H; discriminate H.
Defined.

(** ** What an update stores *)

Lemma trim_trimmed_of (given : jsstring) :
  trim given <> [] -> trimmed_of given (trim given).
Proof.
  intros Hne. split; [done|]. split; [apply trim_head|].
  split; [apply trim_last|]. apply trim_split.
Qed.

Lemma outcome_update_values (w1 : World) (req : Request) (w' : World)
    (values : list JSValue) :
  Outcome w1 req w' ->
  (UPDATE_ENTREGAS, values) ∈ executed (trace w') ->
  (UPDATE_ENTREGAS, values) ∈ executed (trace w1)
  \/ exists id b s n,
       req = PUT_api_deliveries_id_status id b
       /\ property b (js "delivererName") = JSString n
       /\ trim n <> []
       /\ values = [JSString (toUpperCase s); JSString (trim n); JSString id].
Proof.
  intros Hout.
  destruct Hout; unfold answered, rejected_by, log; simpl;
    rewrite ?executed_app; simpl; rewrite ?app_nil_r; auto;
    intros Hin; apply elem_of_app in Hin as [Hold | Hnew]; auto;
    apply list_elem_of_singleton in Hnew;
    first [ (* a SELECT is not the UPDATE *)
            injection Hnew as Hsql _; exfalso;
            by apply (spec_select_not_update q)
          | injection Hnew as Hvalues; right; exists id, b, s, n;
            repeat split; done ].
Qed.

(** X12.  Lines 112 and 119.  The deliverer name an update binds is
    never blank and never has white space at either end: it is the name
    of the body without the white space around it. *)
Theorem stored_name_is_trimmed (req : Request) (w : World)
    (values : list JSValue) :
  (UPDATE_ENTREGAS, values) ∈ executed (trace (serve req w)) ->
  (UPDATE_ENTREGAS, values) ∈ executed (trace w)
  \/ exists id b given flag name,
       req = PUT_api_deliveries_id_status id b
       /\ property b (js "delivererName") = JSString given
       /\ values = [JSString flag; JSString name; JSString id]
       /\ trimmed_of given name.
Proof.
  assert (Hcheck : executed (trace (connection_checked (set_sent None w)))
                   = executed (trace w)).
  { unfold connection_checked, log. simpl. rewrite !executed_app. simpl.
    by rewrite !app_nil_r. }
  outcomes req w Hc Hout.
  - intros Hin.
    destruct (outcome_update_values _ req _ values Hout Hin)
      as [Hold | (id & b & s & n & Hreq & Hn & Hnb & Hvalues)].
    + left. by rewrite <- Hcheck.
    + right. exists id, b, n, (toUpperCase s), (trim n).
      repeat split; try done. all: by apply trim_trimmed_of.
  - intros Hin. left. revert Hin. unfold connection_refused, log. simpl.
    rewrite !executed_app. simpl. by rewrite !app_nil_r.
Qed.

Lemma stored_name_is_trimmed_witness :
  let req := PUT_api_deliveries_id_status (js "7")
               {[ js "status" := JSString (js "s");
                  js "delivererName" := JSString (js "  Maria  ") ]} in
  let values := [JSString (js "S"); JSString (js "Maria"); JSString (js "7")] in
  (UPDATE_ENTREGAS, values) ∈ executed (trace world0)
  \/ exists id b given flag name,
       req = PUT_api_deliveries_id_status id b
       /\ property b (js "delivererName") = JSString given
       /\ values = [JSString flag; JSString name; JSString id]
       /\ trimmed_of given name.
Proof.
  intros req values. apply (stored_name_is_trimmed req world0 values).
  apply list_elem_of_In. vm_compute. left. reflexivity.
Defined.

(** X13.  Lines 122-126.  A valid update whose statement the server
    executes is answered 404 exactly when no row of the table has the
    id of the path; a row that has it makes the answer 200, also when
    the row already holds the flag and the name. *)
Theorem not_found_iff_no_row (id : jsstring)
    (req_body : gmap jsstring JSValue) (s n : jsstring) (w : World) :
  property req_body (js "status") = JSString s ->
  toUpperCase s = js "S" \/ toUpperCase s = js "N" ->
  property req_body (js "delivererName") = JSString n ->
  trim n <> [] ->
  fails (mysql w) UPDATE_ENTREGAS
    [JSString (toUpperCase s); JSString (trim n); JSString id] = false ->
  let w' := snd (put_delivery_status id req_body w) in
  (answer_code w' = Some 404%Z
   <-> forall r, r ∈ entregas w ->
         where_eq (mysql w) (ID_ENTREGA r) (JSString id) = false)
  /\ (answer_code w' = Some 200%Z
      <-> exists r, r ∈ entregas w
            /\ where_eq (mysql w) (ID_ENTREGA r) (JSString id) = true).
Proof.
  intros Hs Hup Hn Hnb Hok w'. subst w'.
  rewrite (put_valid _ _ _ _ _ Hs Hup Hn Hnb).
  rewrite update_and_answer_run. cbv zeta. rewrite Hok.
  rewrite <- rows_matched_0.
  assert (Hex : (exists r, r ∈ entregas w
                   /\ where_eq (mysql w) (ID_ENTREGA r) (JSString id) = true)
                <-> rows_matched (where_eq (mysql w)) (JSString id) (entregas w)
                    <> 0%nat).
  { rewrite rows_matched_0. split.
    - intros (r & Hr & Hm) Hall. specialize (Hall r Hr). congruence.
    - intros Hnot.
      induction (entregas w) as [|r t IH].
      + destruct Hnot. intros r Hr. by apply elem_of_nil in Hr.
      + destruct (where_eq (mysql w) (ID_ENTREGA r) (JSString id)) eqn:Hm.
        * exists r. split; [by left | done].
        * destruct IH as (r' & Hr' & Hm').
          { intros Hall. apply Hnot. intros r' Hr'.
            apply elem_of_cons in Hr' as [-> | Hr']; auto. }
          exists r'. split; [by right | done]. }
  rewrite Hex. unfold affected_rows, FOUND_ROWS.
  destruct (_ =? 0)%Z eqn:Haff; unfold answer_code; simpl.
  - apply Z.eqb_eq in Haff. split; split; intros H; try done; lia.
  - apply Z.eqb_neq in Haff. split; split; intros H; try done; lia.
Qed.

Lemma not_found_iff_no_row_witness :
  let req_body : gmap jsstring JSValue :=
    {[ js "status" := JSString (js "S");
       js "delivererName" := JSString (js "Ana") ]} in
  answer_code (snd (put_delivery_status (js "8") req_body world0))
  = Some 200%Z
  /\ answer_code (snd (put_delivery_status (js "9") req_body world0))
     = Some 404%Z.
Proof.
  intros req_body. split.
  - destruct (not_found_iff_no_row (js "8") req_body (js "S") (js "Ana")
                world0) as [_ H200].
    + vm_compute. reflexivity.
    + left. vm_compute. reflexivity.
    + vm_compute. reflexivity.
    + vm_compute. discriminate.
    + reflexivity.
    + apply H200. exists row8. split; [|vm_compute; reflexivity].
      apply list_elem_of_In. right. left. reflexivity.
  - destruct (not_found_iff_no_row (js "9") req_body (js "S") (js "Ana")
                world0) as [H404 _].
    + vm_compute. reflexivity.
    + left. vm_compute. reflexivity.
    + vm_compute. reflexivity.
    + vm_compute. discriminate.
    + reflexivity.
    + apply H404. intros r Hr. apply list_elem_of_In in Hr.
      destruct Hr as [<- | [<- | []]]; vm_compute; reflexivity.
Defined.

(** ** One update after another *)

Lemma sql_update_overwrite (eq : SqlValue -> JSValue -> bool)
    (flag1 name1 flag2 name2 : jsstring) (id : JSValue) (t : list Row) :
  sql_update eq flag2 name2 id (sql_update eq flag1 name1 id t)
  = sql_update eq flag2 name2 id t.
Proof.
  unfold sql_update. rewrite map_map. apply map_ext. intros r.
  destruct (eq (ID_ENTREGA r) id) eqn:Hm.
  - by rewrite set_delivery_id, Hm.
  - by rewrite Hm.
Qed.

Lemma serve_mysql (req : Request) (w : World) : mysql (serve req w) = mysql w.
Proof. by destruct (serve_writes req w) as [Hm _]. Qed.

(** The table after a whole valid update request whose statement the
    server executes, whether or not a row has the id. *)
Lemma serve_update_table (id : jsstring) (req_body : gmap jsstring JSValue)
    (s n : jsstring) (w : World) :
  property req_body (js "status") = JSString s ->
  toUpperCase s = js "S" \/ toUpperCase s = js "N" ->
  property req_body (js "delivererName") = JSString n ->
  trim n <> [] ->
  connects (mysql w) = true ->
  fails (mysql w) UPDATE_ENTREGAS
    [JSString (toUpperCase s); JSString (trim n); JSString id] = false ->
  entregas (serve (PUT_api_deliveries_id_status id req_body) w)
  = sql_update (where_eq (mysql w)) (toUpperCase s) (trim n) (JSString id)
      (entregas w).
Proof.
  intros Hs Hup Hn Hnb Hconn Hok. unfold serve.
  rewrite app_up by done. unfold async_call, route.
  rewrite (put_valid _ _ _ _ _ Hs Hup Hn Hnb).
  rewrite update_and_answer_run. cbv zeta.
  change (mysql (connection_checked (set_sent None w))) with (mysql w).
  change (entregas (connection_checked (set_sent None w))) with (entregas w).
  rewrite Hok. by destruct (_ =? 0)%Z.
Qed.

(** X14.  Lines 117-120.  The last update wins: of two valid updates of
    the same id, served one after the other by a server that executes
    both statements, the first leaves no mark; the table is the one the
    second alone would have made. *)
Theorem last_update_wins (id : jsstring)
    (body1 body2 : gmap jsstring JSValue) (s1 n1 s2 n2 : jsstring) (w : World) :
  property body1 (js "status") = JSString s1 ->
  toUpperCase s1 = js "S" \/ toUpperCase s1 = js "N" ->
  property body1 (js "delivererName") = JSString n1 ->
  trim n1 <> [] ->
  property body2 (js "status") = JSString s2 ->
  toUpperCase s2 = js "S" \/ toUpperCase s2 = js "N" ->
  property body2 (js "delivererName") = JSString n2 ->
  trim n2 <> [] ->
  connects (mysql w) = true ->
  fails (mysql w) UPDATE_ENTREGAS
    [JSString (toUpperCase s1); JSString (trim n1); JSString id] = false ->
  fails (mysql w) UPDATE_ENTREGAS
    [JSString (toUpperCase s2); JSString (trim n2); JSString id] = false ->
  entregas (serve (PUT_api_deliveries_id_status id body2)
              (serve (PUT_api_deliveries_id_status id body1) w))
  = entregas (serve (PUT_api_deliveries_id_status id body2) w).
Proof.
  intros Hs1 Hup1 Hn1 Hnb1 Hs2 Hup2 Hn2 Hnb2 Hconn Hok1 Hok2.
  pose proof (serve_mysql (PUT_api_deliveries_id_status id body1) w) as Hm.
  rewrite (serve_update_table id body2 s2 n2 w) by done.
  rewrite (serve_update_table id body2 s2 n2
             (serve (PUT_api_deliveries_id_status id body1) w))
    by (try done; by rewrite Hm).
  rewrite Hm.
  rewrite (serve_update_table id body1 s1 n1 w) by done.
  apply sql_update_overwrite.
Qed.

Lemma last_update_wins_witness :
  let body1 : gmap jsstring JSValue :=
    {[ js "status" := JSString (js "S");
       js "delivererName" := JSString (js "Ana") ]} in
  let body2 : gmap jsstring JSValue :=
    {[ js "status" := JSString (js "n");
       js "delivererName" := JSString (js " Rui ") ]} in
  entregas (serve (PUT_api_deliveries_id_status (js "7") body2)
              (serve (PUT_api_deliveries_id_status (js "7") body1) world0))
  = [set_delivery (SqlText (js "N")) (SqlText (js "Rui")) row7; row8].
Proof.
  intros body1 body2.
  refine (eq_trans (last_update_wins (js "7") body1 body2
                      (js "S") (js "Ana") (js "n") (js " Rui ") world0
                      _ _ _ _ _ _ _ _ _ _ _) _).
  - vm_compute. reflexivity.
  - left. vm_compute. reflexivity.
  - vm_compute. reflexivity.
  - vm_compute. discriminate.
  - vm_compute. reflexivity.
  - right. vm_compute. reflexivity.
  - vm_compute. reflexivity.
  - vm_compute. discriminate.
  - reflexivity.
  - reflexivity.
  - reflexivity.
  - vm_compute. reflexivity.
Defined.

(** * The code of server.js on everything that can arrive *)

Lemma check_connection_async_up (callee : Js ()) (w : World) :
  connects (mysql w) = true ->
  check_connection (async_call callee) w
  = async_call callee (connection_checked w).
Proof.
  intros Hup. unfold check_connection, pool_getConnection,
    connection_release. js_unfold.
  cbv zeta. change (mysql (log _ w)) with (mysql w). rewrite Hup.
  fold (connection_checked w).
  pose proof (async_call_normal callee (connection_checked w)) as Hn.
  destruct (async_call callee (connection_checked w)) as [c w'].
  simpl in Hn. by subst c.
Qed.

Lemma arrive_body_undefined (id : jsstring) (w : World) :
  arrive (PUT_body_undefined id) w
  = if connects (mysql w)
    then rejected_by (TypeError (js "status"))
           (connection_checked (set_sent None w))
    else connection_refused (set_sent None w).
Proof.
  unfold arrive, server_js. destruct (connects (mysql w)) eqn:Hc.
  - by rewrite check_connection_async_up.
  - by rewrite check_connection_down.
Qed.

(** X7.  Lines 76-84 and 109-114, after line 14.  An answer 400 of the
    code of server.js comes before the database: on whatever arrives,
    when that code answers 400 it has sent no statement and the table
    is as it was, and the body is the message of line 82, of line 110
    or of line 113.  (The answer Express itself gives to a body that
    express.json() refuses is not sent by this code.) *)
Theorem program_400_before_database (a : Arrival) (w : World) (r : Response) :
  sent (arrive a w) = Some r ->
  statusCode r = 400%Z ->
  executed (trace (arrive a w)) = executed (trace w)
  /\ entregas (arrive a w) = entregas w
  /\ (body r = Message (js "Status inválido. Use " ++ [34] ++ js "S" ++ [34]
                        ++ js " para entregue ou " ++ [34] ++ js "N" ++ [34]
                        ++ js " para não entregue.")
      \/ body r = Message (js "Status é obrigatório e deve ser " ++ [34]
                           ++ js "S" ++ [34] ++ js " ou " ++ [34] ++ js "N"
                           ++ [34] ++ js ".")
      \/ body r = Message (js "Nome do entregador é obrigatório.")).
Proof.
  destruct a as [req | id |].
  - change (arrive (HandedOn req) w) with (serve req w). intros Hsent Hcode.
    destruct (serve_400_before_database req w r Hsent Hcode)
      as (Hx & Ht & Hbody).
    split; [exact Hx|]. split; [exact Ht|].
    destruct Hbody as [-> | [-> | ->]].
    + left. unfold MSG_STATUS_INVALIDO, dquote. reflexivity.
    + right. left. unfold MSG_STATUS_OBRIGATORIO, dquote. reflexivity.
    + right. right. unfold MSG_NOME_OBRIGATORIO. reflexivity.
  - rewrite arrive_body_undefined.
    destruct (connects (mysql w)); intros Hsent Hcode.
    + discriminate Hsent.
    + injection Hsent as <-. discriminate Hcode.
  - intros Hsent. discriminate Hsent.
Qed.

Lemma program_400_before_database_witness :
  let a := HandedOn (PUT_api_deliveries_id_status (js "7")
                       {[ js "status" := JSString (js "S") ]}) in
  executed (trace (arrive a world0)) = []
  /\ entregas (arrive a world0) = [row7; row8].
Proof.
  intros a.
  destruct (program_400_before_database a world0
              (mkResponse 400
                 (Message (js "Nome do entregador é obrigatório."))))
    as (Hx & Ht & _).
  - vm_compute. reflexivity.
  - reflexivity.
  - split; [exact Hx | exact Ht].
Defined.

Lemma rejections_app (t1 t2 : list Event) :
  rejections (t1 ++ t2) = (rejections t1 + rejections t2)%nat.
Proof.
  induction t1 as [|e t1 IH]; [done|].
  destruct e; simpl; by rewrite IH.
Qed.

Lemma outcome_no_rejection (w1 : World) (req : Request) (w' : World) :
  ~ status_not_text (request_status req) ->
  Outcome w1 req w' ->
  rejections (trace w') = rejections (trace w1).
Proof.
  intros Hok Hout.
  destruct Hout; unfold answered, rejected_by, log; simpl in *;
    rewrite ?rejections_app; simpl; first [lia | by destruct Hok].
Qed.

Lemma serve_status_not_text (req : Request) (w : World) :
  connects (mysql w) = true ->
  status_not_text (request_status req) ->
  serve req w
  = rejected_by (TypeError (js "toUpperCase"))
      (connection_checked (set_sent None w)).
Proof.
  intros Hc [Ht Hns]. unfold serve. rewrite app_up by done.
  unfold async_call. destruct req as [q | id b |]; simpl in *.
  - by rewrite get_deliveries_throws.
  - by rewrite put_status_throws.
  - discriminate Ht.
Qed.

(** X8.  Lines 76-78, 106 and 109, after line 14.  An exception leaves
    a handler, so that its promise rejects, in these cases and in no
    other: the status is truthy and not a text, or a PUT arrives with
    [req.body] undefined.  It is a TypeError, thrown right after the
    connection check, before any statement, with the table as it was.
    On every other arrival, and whenever the pool gives no connection,
    no promise rejects: an error of the database never leaves a
    handler. *)
Theorem exception_leaves_handler_iff (a : Arrival) (w : World) :
  (connects (mysql w) = true -> leaves_handler a ->
   (exists member,
      trace (arrive a w)
      = trace w ++ [PoolGetConnection; ConnectionRelease;
                    HandlerRejected (TypeError member)])
   /\ entregas (arrive a w) = entregas w)
  /\ (connects (mysql w) = false \/ ~ leaves_handler a ->
      rejections (trace (arrive a w)) = rejections (trace w)).
Proof.
  split.
  - intros Hc Hleaves. destruct a as [req | id |]; simpl in Hleaves.
    + change (arrive (HandedOn req) w) with (serve req w).
      rewrite (serve_status_not_text req w Hc Hleaves).
      split; [|done]. exists (js "toUpperCase").
      unfold rejected_by, connection_checked, log. simpl.
      by rewrite <- !app_assoc.
    + rewrite arrive_body_undefined, Hc.
      split; [|done]. exists (js "status").
      unfold rejected_by, connection_checked, log. simpl.
      by rewrite <- !app_assoc.
    + done.
  - intros Hno.
    assert (Hcheck : rejections (trace (connection_checked (set_sent None w)))
                     = rejections (trace w)).
    { unfold connection_checked, log. simpl. rewrite !rejections_app. simpl.
      lia. }
    assert (Hrefused : rejections (trace (connection_refused (set_sent None w)))
                       = rejections (trace w)).
    { unfold connection_refused, log. simpl. rewrite !rejections_app. simpl.
      lia. }
    destruct a as [req | id |].
    + change (arrive (HandedOn req) w) with (serve req w).
      destruct (serve_outcome req w) as [[Hc Hout] | [Hc ->]]; [|done].
      destruct Hno as [Hdown | Hok]; [congruence|].
      rewrite <- Hcheck. by apply (outcome_no_rejection _ req).
    + rewrite arrive_body_undefined.
      destruct Hno as [-> | Hok]; [done|]. by destruct Hok.
    + done.
Qed.

Lemma exception_leaves_handler_iff_witness :
  trace (arrive (HandedOn (GET_api_deliveries
                             {[ js "status" := JSArray [JSString (js "S");
                                                        JSString (js "N")] ]}))
           world0)
  = [PoolGetConnection; ConnectionRelease;
     HandlerRejected (TypeError (js "toUpperCase"))]
  /\ trace (arrive (PUT_body_undefined (js "7")) world0)
     = [PoolGetConnection; ConnectionRelease;
        HandlerRejected (TypeError (js "status"))]
  /\ rejections (trace (arrive (HandedOn (GET_api_deliveries ∅)) world_failing))
     = 0%nat.
Proof.
  split; [|split].
  - destruct (proj1 (exception_leaves_handler_iff
                       (HandedOn (GET_api_deliveries
                                    {[ js "status" :=
                                         JSArray [JSString (js "S");
                                                  JSString (js "N")] ]}))
                       world0)) as [(member & Htrace) _].
    + reflexivity.
    + split; [vm_compute; reflexivity|].
      intros s Hs. vm_compute in Hs. discriminate Hs.
    + vm_compute. reflexivity.
  - destruct (proj1 (exception_leaves_handler_iff
                       (PUT_body_undefined (js "7")) world0))
      as [(member & Htrace) _].
    + reflexivity.
    + exact I.
    + vm_compute. reflexivity.
  - refine (eq_trans (proj2 (exception_leaves_handler_iff
                               (HandedOn (GET_api_deliveries ∅))
                               world_failing) _) _).
    + right. intros [Ht _]. vm_compute in Ht. discriminate Ht.
    + reflexivity.
Defined.

(** X9.  Lines 34-37, 89-92 and 127-130, after line 14.  In the code of
    server.js the call of [console.error] and the answer 500 go
    together: on whatever arrives, this code logs one error when it
    answers 500 and logs none when it does not.  (What Express logs and
    answers by itself is not this code.) *)
Theorem program_logs_iff_it_answers_500 (a : Arrival) (w : World) :
  errors_logged (trace (arrive a w))
  = (errors_logged (trace w)
     + if bool_decide (answer_code (arrive a w) = Some 500%Z) then 1 else 0)%nat.
Proof.
  destruct a as [req | id |].
  - change (arrive (HandedOn req) w) with (serve req w).
    apply serve_errors_logged.
  - rewrite arrive_body_undefined. destruct (connects (mysql w)).
    + unfold rejected_by, connection_checked, answer_code, log. simpl.
      rewrite !errors_logged_app. simpl. lia.
    + unfold connection_refused, answer_code, log. simpl.
      rewrite !errors_logged_app. simpl. lia.
  - unfold arrive, answer_code. simpl. lia.
Qed.
